(** * flytekit.clis.helpers: registration-time hydration and literal-map
      construction

    A shallow embedding of [flytekit/clis/helpers.py], followed by one of
    [flytekit/extras/persistence/abfs_azurecli.py].  Protobuf messages
    are records and tagged unions, Python dicts are [gmap]s (or association
    lists where the iteration order decides which exception is raised),
    and a call that may raise returns a sum type. *)

From Stdlib Require Import ZArith Ascii String List Bool Lia.
From stdpp Require Import base option list gmap strings fin_maps.

Local Open Scope string_scope.
Local Open Scope list_scope.
Local Open Scope Z_scope.

(** ** Identifiers (flyteidl.core.identifier_pb2) *)

(** A protobuf enum field is an integer in Python; [resource_type] is
    compared with [==] against the module constants below. *)
Definition UNSPECIFIED : Z := 0.
Definition TASK : Z := 1.
Definition WORKFLOW : Z := 2.
Definition LAUNCH_PLAN : Z := 3.

Record Identifier := mkIdentifier {
  resource_type : Z;
  project : string;
  domain : string;
  name : string;
  version : string
}.

(** The coordinate context: the three string arguments [project],
    [domain], [version] that every hydration function receives. *)
Record Context := mkContext {
  ctx_project : string;
  ctx_domain : string;
  ctx_version : string
}.

(** Python's [a or b] on strings: [a] when it is truthy (non-empty),
    [b] otherwise. *)
Definition py_or (a b : string) : string :=
  match a with
  | EmptyString => b
  | String _ _ => a
  end.

(** [_hydrate_identifier]: three field assignments on the message, which is
    then returned.  The value of the message after the assignments is the
    value returned. *)
Definition _hydrate_identifier (ctx : Context) (identifier : Identifier) : Identifier :=
  let identifier :=
    mkIdentifier (resource_type identifier)
                 (py_or (project identifier) (ctx_project ctx))
                 (domain identifier) (name identifier) (version identifier) in
  let identifier :=
    mkIdentifier (resource_type identifier) (project identifier)
                 (py_or (domain identifier) (ctx_domain ctx))
                 (name identifier) (version identifier) in
  let identifier :=
    mkIdentifier (resource_type identifier) (project identifier)
                 (domain identifier) (name identifier)
                 (py_or (version identifier) (ctx_version ctx)) in
  identifier.

(** ** Workflow templates (flyteidl.core.workflow_pb2) *)

(** [TaskNode]: the reference identifier and the remaining fields
    (overrides), which the code never reads. *)
Record TaskNode := mkTaskNode {
  reference_id : Identifier;
  task_overrides : string
}.

(** The [reference] oneof of a [WorkflowNode]; [HasField] tells which arm
    is populated. *)
Inductive WorkflowNode :=
  | launchplan_ref (id : Identifier)
  | sub_workflow_ref (id : Identifier)
  | reference_not_set.

(** The [target] oneof of a [Node].  Only [task_node] and [workflow_node]
    are inspected by the code; every other arm (branch nodes and the like)
    is carried as an uninterpreted payload. *)
Inductive NodeTarget :=
  | task_node (tn : TaskNode)
  | workflow_node (wn : WorkflowNode)
  | other_node (payload : string)
  | target_not_set.

Record Node := mkNode {
  node_id : string;
  node_rest : string;
  target : NodeTarget
}.

Record WorkflowTemplate := mkWorkflowTemplate {
  wt_id : Identifier;
  wt_rest : string;
  nodes : list Node
}.

Record TaskTemplate := mkTaskTemplate {
  tt_id : Identifier;
  tt_rest : string
}.

(** One iteration of the loop body of [_hydrate_workflow_template]: the
    node as it is appended to [refreshed_nodes]. *)
Definition hydrate_node (ctx : Context) (node : Node) : Node :=
  match target node with
  | task_node tn =>
      let tn := mkTaskNode (_hydrate_identifier ctx (reference_id tn)) (task_overrides tn) in
      mkNode (node_id node) (node_rest node) (task_node tn)
  | workflow_node wn =>
      let wn :=
        match wn with
        | launchplan_ref id => launchplan_ref (_hydrate_identifier ctx id)
        | sub_workflow_ref id => sub_workflow_ref (_hydrate_identifier ctx id)
        | reference_not_set => reference_not_set
        end in
      mkNode (node_id node) (node_rest node) (workflow_node wn)
  | other_node _ | target_not_set => node
  end.

(** [_hydrate_workflow_template]: [refreshed_nodes] is built front to back
    by [append], the node list is emptied and refilled with it. *)
Fixpoint refresh_nodes (ctx : Context) (todo refreshed_nodes : list Node) : list Node :=
  match todo with
  | [] => refreshed_nodes
  | node :: todo => refresh_nodes ctx todo (refreshed_nodes ++ [hydrate_node ctx node])
  end.

Definition _hydrate_workflow_template (ctx : Context) (template : WorkflowTemplate)
  : WorkflowTemplate :=
  let refreshed_nodes := refresh_nodes ctx (nodes template) [] in
  mkWorkflowTemplate (wt_id template) (wt_rest template) ([] ++ refreshed_nodes).

(** ** Registrable entities (flyteidl.admin) *)

(** The three message types named in the docstring of
    [hydrate_registration_parameters], each with the fields the code
    touches and the rest as a payload. *)
Inductive Entity :=
  | LaunchPlanSpec (workflow_id : Identifier) (rest : string)
  | TaskSpec (template : TaskTemplate)
  | WorkflowSpec (template : WorkflowTemplate) (sub_workflows : list WorkflowTemplate).

(** The exceptions of this module: reading an attribute a generated
    message class does not declare raises [AttributeError], an index past
    the end of a list raises [IndexError], [Exception] is the one the code
    raises itself.  [UnparsableValue] stands for what the imported type
    engine raises on a string it cannot convert. *)
Inductive exn :=
  | AttributeError (attr : string)
  | IndexError
  | Exception (msg : string)
  | UnparsableValue (raw target : string).

(** What a call leaves behind: the value it returns, or the exception it
    raises; in both cases with the state of the caller's [entity] object,
    which is mutated in place. *)
Inductive outcome :=
  | Returned (identifier : Identifier) (entity : Entity)
  | Raised (e : exn) (entity : Entity).

Definition entity_of (o : outcome) : Entity :=
  match o with
  | Returned _ entity => entity
  | Raised _ entity => entity
  end.

(** [entity.template.id], where the message has a [template] field. *)
Definition template_id (entity : Entity) : option Identifier :=
  match entity with
  | LaunchPlanSpec _ _ => None
  | TaskSpec t => Some (tt_id t)
  | WorkflowSpec t _ => Some (wt_id t)
  end.

(** [entity.template.id.CopyFrom(identifier)] *)
Definition set_template_id (identifier : Identifier) (entity : Entity) : exn + Entity :=
  match entity with
  | LaunchPlanSpec _ _ => inl (AttributeError "template")
  | TaskSpec t => inr (TaskSpec (mkTaskTemplate identifier (tt_rest t)))
  | WorkflowSpec t subs =>
      inr (WorkflowSpec (mkWorkflowTemplate identifier (wt_rest t) (nodes t)) subs)
  end.

Fixpoint refresh_sub_workflows (ctx : Context) (todo refreshed : list WorkflowTemplate)
  : list WorkflowTemplate :=
  match todo with
  | [] => refreshed
  | sub_workflow :: todo =>
      refresh_sub_workflows ctx todo (refreshed ++ [_hydrate_workflow_template ctx sub_workflow])
  end.

Definition hydrate_registration_parameters
    (identifier : Identifier) (ctx : Context) (entity : Entity) : outcome :=
  let identifier := _hydrate_identifier ctx identifier in
  if resource_type identifier =? LAUNCH_PLAN then
    match entity with
    | LaunchPlanSpec workflow_id rest =>
        Returned identifier (LaunchPlanSpec (_hydrate_identifier ctx workflow_id) rest)
    | _ => Raised (AttributeError "workflow_id") entity
    end
  else
    match set_template_id identifier entity with
    | inl e => Raised e entity
    | inr entity =>
        if resource_type identifier =? TASK then Returned identifier entity
        else
          match entity with
          | WorkflowSpec t sub_workflows =>
              let refreshed_sub_workflows := refresh_sub_workflows ctx sub_workflows [] in
              Returned identifier (WorkflowSpec t ([] ++ refreshed_sub_workflows))
          | _ => Raised (AttributeError "sub_workflows") entity
          end
    end.

(** ** Calls that may raise *)

Inductive result (A : Type) :=
  | Ok (a : A)
  | Err (e : exn).
Arguments Ok {A} a.
Arguments Err {A} e.

#[global] Instance result_ret : MRet result := fun A a => Ok a.
#[global] Instance result_bind : MBind result := fun A B f r =>
  match r with
  | Ok a => f a
  | Err e => Err e
  end.

(** ** Splitting [key=value] arguments *)

(** Python's [s.split(sep, 1)] for a one-character separator: the whole
    string when [sep] does not occur, otherwise the text before the first
    [sep] and the text after it. *)
Fixpoint str_split1 (sep : ascii) (s : string) : list string :=
  match s with
  | EmptyString => [EmptyString]
  | String c s' =>
      if Ascii.eqb c sep then [EmptyString; s']
      else match str_split1 sep s' with
           | head :: tail => String c head :: tail
           | [] => [String c EmptyString]
           end
  end.

(** [l[i]] on a Python list, for an index from the front. *)
Definition py_index {A} (l : list A) (i : nat) : result A :=
  match l !! i with
  | Some x => Ok x
  | None => Err IndexError
  end.

(** The dict comprehension of [parse_args_into_dict]: entries are stored in
    iteration order, a later store to the same key replaces the earlier. *)
Fixpoint dict_of_splits (splits : list (list string)) (d : gmap string string)
  : result (gmap string string) :=
  match splits with
  | [] => Ok d
  | split_arg :: splits =>
      k ← py_index split_arg 0;
      v ← py_index split_arg 1;
      dict_of_splits splits (<[k := v]> d)
  end.

Definition parse_args_into_dict (input_arguments : list string)
  : result (gmap string string) :=
  dict_of_splits (map (str_split1 "=") input_arguments) ∅.

(** ** The boolean parser *)

(** [str.lower()] restricted to what decides [str2bool]: the letters A-Z
    are mapped to a-z.  The characters outside ASCII that Python also
    lowers are never mapped to a letter or digit of the four words
    compared against, so they are left as they are. *)
Definition lower_ascii (c : ascii) : ascii :=
  let n := nat_of_ascii c in
  if ((65 <=? n)%nat && (n <=? 90)%nat)%bool then ascii_of_nat (n + 32) else c.

Fixpoint lower (s : string) : string :=
  match s with
  | EmptyString => EmptyString
  | String c s' => String (lower_ascii c) (lower s')
  end.

Definition false_words : list string := ["false"; "0"; "off"; "no"].

Definition str2bool (str : string) : bool :=
  negb (existsb (String.eqb (lower str)) false_words).

(** ** Literal maps *)

Section LiteralConstruction.

(** The type engine ([flytekit.common.types.helpers] and the SDK types)
    is imported, not defined, by this module: literal types, SDK types
    and literals are opaque, type resolution and [from_string] may
    raise. *)
Context {LiteralType SdkType Literal : Type}.
Variable _get_sdk_type_from_literal_type : LiteralType -> result SdkType.
Variable from_string : SdkType -> string -> result Literal.

(** [flytekit.models.interface.Variable] and [.Parameter] *)
Record Variable_ := mkVariable {
  var_type : LiteralType;
  var_description : string
}.

Record Parameter_ := mkParameter {
  var : Variable_;
  default : Literal;
  required : bool
}.

(** [var_name in text_args and text_args[var_name] is not None]: the
    string to parse when the test succeeds.  A value of [None] in the
    dict is [Some None] here. *)
Definition supplied (text_args : gmap string (option string)) (var_name : string)
  : option string :=
  match text_args !! var_name with
  | Some (Some s) => Some s
  | _ => None
  end.

(** The loop of [construct_literal_map_from_variable_map] over the items
    of [variable_dict], in iteration order. *)
Fixpoint variable_loop (items : list (string * Variable_))
    (text_args : gmap string (option string)) (inputs : gmap string Literal)
  : result (gmap string Literal) :=
  match items with
  | [] => Ok inputs
  | (var_name, variable) :: items =>
      match supplied text_args var_name with
      | Some s =>
          sdk_type ← _get_sdk_type_from_literal_type (var_type variable);
          lit ← from_string sdk_type s;
          variable_loop items text_args (<[var_name := lit]> inputs)
      | None => variable_loop items text_args inputs
      end
  end.

Definition construct_literal_map_from_variable_map
    (variable_dict : list (string * Variable_))
    (text_args : gmap string (option string)) : result (gmap string Literal) :=
  variable_loop variable_dict text_args ∅.

Definition MissingRequiredParameter (var_name : string) : exn :=
  Exception ("Missing required parameter " +:+ var_name).

(** The loop of [construct_literal_map_from_parameter_map]; the SDK type
    is resolved for every parameter, before [required] is looked at. *)
Fixpoint parameter_loop (items : list (string * Parameter_))
    (text_args : gmap string (option string)) (inputs : gmap string Literal)
  : result (gmap string Literal) :=
  match items with
  | [] => Ok inputs
  | (var_name, parameter) :: items =>
      sdk_type ← _get_sdk_type_from_literal_type (var_type (var parameter));
      if required parameter then
        match supplied text_args var_name with
        | Some s =>
            lit ← from_string sdk_type s;
            parameter_loop items text_args (<[var_name := lit]> inputs)
        | None => Err (MissingRequiredParameter var_name)
        end
      else
        match supplied text_args var_name with
        | Some s =>
            lit ← from_string sdk_type s;
            parameter_loop items text_args (<[var_name := lit]> inputs)
        | None => parameter_loop items text_args (<[var_name := default parameter]> inputs)
        end
  end.

Definition construct_literal_map_from_parameter_map
    (parameters : list (string * Parameter_))
    (text_args : gmap string (option string)) : result (gmap string Literal) :=
  parameter_loop parameters text_args ∅.

(** What the type engine does with one supplied string: it yields the
    literal that is stored, or raises in one of its two steps. *)
Definition parsed_as (t : LiteralType) (s : string) (lit : Literal) : Prop :=
  exists sdk_type,
    _get_sdk_type_from_literal_type t = Ok sdk_type /\ from_string sdk_type s = Ok lit.

Definition parse_raises (t : LiteralType) (s : string) (e : exn) : Prop :=
  _get_sdk_type_from_literal_type t = Err e \/
  exists sdk_type,
    _get_sdk_type_from_literal_type t = Ok sdk_type /\ from_string sdk_type s = Err e.

End LiteralConstruction.

(** ** A small type engine *)

(** Modelled from the spec: the type-directed parser registry
    ([flytekit.common.types.helpers] and the SDK primitive types), which
    lives outside this module.  Each parser converts a raw string into the
    corresponding literal or fails with an unparsable-value error that
    carries the raw string and the target type.  Two primitive types are
    enough for the examples below. *)
Module TypeEngine.

Inductive LiteralType := INTEGER | STRING.
Inductive SdkType := Integer | String_.
Inductive Literal :=
  | LInteger (z : Z)
  | LString (s : string).

Definition get_sdk_type_from_literal_type (t : LiteralType) : result SdkType :=
  match t with
  | INTEGER => Ok Integer
  | STRING => Ok String_
  end.

Definition digit (c : ascii) : option Z :=
  let n := nat_of_ascii c in
  if ((48 <=? n)%nat && (n <=? 57)%nat)%bool then Some (Z.of_nat n - 48) else None.

Fixpoint digits (s : string) (acc : Z) : option Z :=
  match s with
  | EmptyString => Some acc
  | String c s' =>
      match digit c with
      | Some d => digits s' (10 * acc + d)
      | None => None
      end
  end.

Definition parse_integer (s : string) : option Z :=
  match s with
  | EmptyString => None
  | String "-" (String _ _ as s') => Z.opp <$> digits s' 0
  | _ => digits s 0
  end.

Definition from_string (t : SdkType) (s : string) : result Literal :=
  match t with
  | Integer =>
      match parse_integer s with
      | Some z => Ok (LInteger z)
      | None => Err (UnparsableValue s "Integer")
      end
  | String_ => Ok (LString s)
  end.

End TypeEngine.

(** ** The Azure blob persistence plugin
       (flytekit.extras.persistence.abfs_azurecli) *)

Module AzureCli.

Definition PROTOCOL : string := "abfs://".
Definition _AZURE_CLI : string := "az".
Definition STORAGE_ACCOUNT_NAME_ENV_VAR : string := "AZURE_STORAGE_ACCOUNT".
Definition STORAGE_ACCOUNT_KEY_ENV_VAR : string := "AZURE_STORAGE_KEY".

(** The exceptions this module raises or lets through.  [ProcessError] is
    whatever [subprocess.check_call] raises, carried with its [str()]. *)
Inductive exn :=
  | ValueError (msg : string)
  | FlyteUserException (msg : string)
  | KeyError (key : string)
  | TypeError (msg : string)
  | ProcessError (msg : string).

(** [str(ex)] *)
Definition exn_str (ex : exn) : string :=
  match ex with
  | ValueError msg => msg
  | FlyteUserException msg => msg
  | KeyError key => "'" +:+ key +:+ "'"
  | TypeError msg => msg
  | ProcessError msg => msg
  end.

Inductive res (A : Type) :=
  | Return (a : A)
  | Raise (ex : exn).
Arguments Return {A} a.
Arguments Raise {A} ex.

(** [AzureBlobConfig]: the two credentials, either of which may be unset,
    the delay between attempts (a [timedelta], as its signed length) and
    the retry bound. *)
Record AzureBlobConfig := mkAzureBlobConfig {
  storage_account_name : option string;
  storage_account_key : option string;
  backoff : Z;
  retries : Z
}.

Record AzurePersistence := mkAzurePersistence {
  default_prefix : option string;
  azure_cfg : AzureBlobConfig
}.

(** What the plugin finds around it: the process environment, whether the
    [az] binary is on the path, what the [n]-th call of
    [subprocess.check_call] (counted from 0) does with a command and an
    environment, and what [time.sleep] does with a duration: it returns
    once the delay is over, or raises ([ValueError] for a negative
    duration, [OverflowError] for one beyond the platform's clock). *)
Record World := mkWorld {
  environ : gmap string string;
  az_on_path : bool;
  check_call : nat -> list string -> gmap string string -> res Z;
  time_sleep : Z -> res unit
}.

(** [time.sleep] on the durations a platform clock can hold. *)
Definition py_time_sleep (secs : Z) : res unit :=
  if secs <? 0 then Raise (ValueError "sleep length must be non-negative")
  else Return tt.

(** What a call leaves behind: how many times [check_call] has run and
    the delays slept through, oldest first. *)
Record Trace := mkTrace {
  calls : nat;
  sleeps : list Z
}.

(** Truthiness of an optional string: [None] and the empty string are
    falsy. *)
Definition truthy (o : option string) : bool :=
  match o with
  | Some (String _ _) => true
  | _ => false
  end.

(** [s[n:]], [s[:n]] and [s.index(c)] *)
Fixpoint str_drop (n : nat) (s : string) : string :=
  match n, s with
  | O, _ => s
  | S n, String _ s' => str_drop n s'
  | S _, EmptyString => EmptyString
  end.

Fixpoint str_take (n : nat) (s : string) : string :=
  match n, s with
  | S n, String c s' => String c (str_take n s')
  | _, _ => EmptyString
  end.

Fixpoint str_index (c : ascii) (s : string) : option nat :=
  match s with
  | EmptyString => None
  | String c' s' => if Ascii.eqb c' c then Some O else S <$> str_index c s'
  end.

(** [re.search(pat, s)] for a pattern without metacharacters: whether
    [pat] occurs in [s]. *)
Fixpoint contains (pat s : string) : bool :=
  match s with
  | EmptyString => String.prefix pat EmptyString
  | String _ s' => String.prefix pat s || contains pat s'
  end.

(** The retry loop of [_update_cmd_config_and_execute].  [fuel] bounds the
    iterations of [while True]; [None] means the bound was hit.  An
    exception of [time.sleep] is raised inside the handler and leaves the
    function. *)
Fixpoint retry_loop (w : World) (cmd : list string) (env : gmap string string)
    (azure_cfg : AzureBlobConfig) (fuel : nat) (retry : Z) (tr : Trace)
  : option (res Z * Trace) :=
  match fuel with
  | O => None
  | S fuel =>
      match check_call w (calls tr) cmd env with
      | Return code => Some (Return code, mkTrace (S (calls tr)) (sleeps tr))
      | Raise e =>
          let retry := retry + 1 in
          if retry >? retries azure_cfg then
            Some (Raise e, mkTrace (S (calls tr)) (sleeps tr))
          else
            let secs := backoff azure_cfg in
            match time_sleep w secs with
            | Raise ex => Some (Raise ex, mkTrace (S (calls tr)) (sleeps tr))
            | Return _ =>
                retry_loop w cmd env azure_cfg fuel retry
                  (mkTrace (S (calls tr)) (sleeps tr ++ [secs]))
            end
      end
  end.

(** Iterations that the loop can need at most. *)
Definition enough_fuel (azure_cfg : AzureBlobConfig) : nat :=
  S (Z.to_nat (retries azure_cfg)).

Definition _update_cmd_config_and_execute (w : World) (cmd : list string)
    (azure_cfg : AzureBlobConfig) (tr : Trace) : option (res Z * Trace) :=
  let env := environ w in
  match
    (if truthy (storage_account_name azure_cfg) then
       Return (<[STORAGE_ACCOUNT_NAME_ENV_VAR := from_option id "" (storage_account_name azure_cfg)]> env)
     else if negb (truthy (environ w !! STORAGE_ACCOUNT_NAME_ENV_VAR)) then
       Raise (ValueError
         ("Azure storage account name not set! Can be set either in config file or as env var "
          +:+ STORAGE_ACCOUNT_NAME_ENV_VAR))
     else Return env)
  with
  | Raise ex => Some (Raise ex, tr)
  | Return env =>
  match
    (if truthy (storage_account_key azure_cfg) then
       Return (<[STORAGE_ACCOUNT_KEY_ENV_VAR := from_option id "" (storage_account_key azure_cfg)]> env)
     else if negb (truthy (environ w !! STORAGE_ACCOUNT_KEY_ENV_VAR)) then
       Raise (ValueError
         ("Azure storage account key not set! Can be set either in config file or as env var "
          +:+ STORAGE_ACCOUNT_KEY_ENV_VAR))
     else Return env)
  with
  | Raise ex => Some (Raise ex, tr)
  | Return env => retry_loop w cmd env azure_cfg (enough_fuel azure_cfg) 0 tr
  end end.

(** The environment the [az] process is started with: the process
    environment, with each configured credential laid over it. *)
Definition child_env (w : World) (azure_cfg : AzureBlobConfig) : gmap string string :=
  let env := environ w in
  let env :=
    if truthy (storage_account_name azure_cfg) then
      <[STORAGE_ACCOUNT_NAME_ENV_VAR := from_option id "" (storage_account_name azure_cfg)]> env
    else env in
  if truthy (storage_account_key azure_cfg) then
    <[STORAGE_ACCOUNT_KEY_ENV_VAR := from_option id "" (storage_account_key azure_cfg)]> env
  else env.

(** A credential can be resolved when the configuration or the process
    environment has a non-empty value for it. *)
Definition credentials_resolve (w : World) (azure_cfg : AzureBlobConfig) : Prop :=
  (truthy (storage_account_name azure_cfg) = true \/
   truthy (environ w !! STORAGE_ACCOUNT_NAME_ENV_VAR) = true) /\
  (truthy (storage_account_key azure_cfg) = true \/
   truthy (environ w !! STORAGE_ACCOUNT_KEY_ENV_VAR) = true).

Definition _check_binary (w : World) : res unit :=
  if az_on_path w then Return tt
  else Raise (FlyteUserException "az not found. Install it with `pip install azure-cli`.").

Definition _check_uri (uri : string) : res unit :=
  if String.prefix PROTOCOL uri then Return tt
  else Raise (FlyteUserException
         (uri +:+ " is not a valid Azure Blob url. Use the format " +:+ PROTOCOL +:+ "...")).

Definition _split_abfs_path (path : string) : res (string * string) :=
  let path := str_drop (String.length PROTOCOL) path in
  match str_index "/" path with
  | None => Raise (ValueError "substring not found")
  | Some first_slash => Return (str_take first_slash path, str_drop (first_slash + 1) path)
  end.

Definition _get_storage_account_url (w : World) (self : AzurePersistence)
    (container blob_path : string) : res string :=
  let url storage_account :=
    "https://" +:+ storage_account +:+ ".blob.core.windows.net/"
      +:+ container +:+ "/" +:+ blob_path in
  match storage_account_key (azure_cfg self) with
  | Some (String _ _ as storage_account) => Return (url storage_account)
  | _ =>
      match environ w !! "AZURE_STORAGE_ACCOUNT" with
      | Some storage_account => Return (url storage_account)
      | None => Raise (KeyError "AZURE_STORAGE_ACCOUNT")
      end
  end.

Definition exists_ (w : World) (self : AzurePersistence) (path : string) (tr : Trace)
  : option (res bool * Trace) :=
  match _check_binary w with
  | Raise ex => Some (Raise ex, tr)
  | Return _ =>
  match _check_uri path with
  | Raise ex => Some (Raise ex, tr)
  | Return _ =>
  match _split_abfs_path path with
  | Raise ex => Some (Raise ex, tr)
  | Return (container, blob_path) =>
      let cmd := [_AZURE_CLI; "storage"; "blob"; "show"; "--container"; container;
                  "--name"; blob_path] in
      match _update_cmd_config_and_execute w cmd (azure_cfg self) tr with
      | None => None
      | Some (Return _, tr) => Some (Return true, tr)
      | Some (Raise ex, tr) =>
          if contains "ErrorCode:ContainerNotFound" (exn_str ex) then Some (Return false, tr)
          else if contains "ErrorCode:BlobNotFound" (exn_str ex) then Some (Return false, tr)
          else Some (Raise ex, tr)
      end
  end end end.

Definition put (w : World) (self : AzurePersistence) (from_path to_path : string)
    (recursive : bool) (tr : Trace) : option (res Z * Trace) :=
  match _check_binary w with
  | Raise ex => Some (Raise ex, tr)
  | Return _ =>
  match _check_uri to_path with
  | Raise ex => Some (Raise ex, tr)
  | Return _ =>
  match _split_abfs_path to_path with
  | Raise ex => Some (Raise ex, tr)
  | Return (container, blob) =>
  match _get_storage_account_url w self container blob with
  | Raise ex => Some (Raise ex, tr)
  | Return url =>
      let cmd :=
        if recursive then
          [_AZURE_CLI; "storage"; "copy"; "--source"; from_path +:+ "/*";
           "--destination"; url; "--recursive"]
        else
          [_AZURE_CLI; "storage"; "copy"; "--source"; from_path; "--destination"; url] in
      _update_cmd_config_and_execute w cmd (azure_cfg self) tr
  end end end end.

Definition construct_path (self : AzurePersistence) (add_protocol add_prefix : bool)
    (paths : list string) : res string :=
  let joined (paths : list string) :=
    let path := String.concat "/" paths in
    if add_protocol then PROTOCOL +:+ path else path in
  if add_prefix then
    match default_prefix self with
    | Some prefix => Return (joined (prefix :: paths))
    | None => Raise (TypeError "sequence item 0: expected str instance, NoneType found")
    end
  else Return (joined paths).

End AzureCli.

(** ** Vocabulary of the properties *)

(** Which arm of the [target] oneof, and for a workflow node of its
    [reference] oneof, a node has populated. *)
Inductive NodeKind :=
  | KTask
  | KWorkflowLaunchPlan
  | KWorkflowSubWorkflow
  | KWorkflowNoReference
  | KOther
  | KNoTarget.

Definition node_kind (node : Node) : NodeKind :=
  match target node with
  | task_node _ => KTask
  | workflow_node (launchplan_ref _) => KWorkflowLaunchPlan
  | workflow_node (sub_workflow_ref _) => KWorkflowSubWorkflow
  | workflow_node reference_not_set => KWorkflowNoReference
  | other_node _ => KOther
  | target_not_set => KNoTarget
  end.

(** The reference identifier a node carries, if any. *)
Definition node_ref (node : Node) : option Identifier :=
  match target node with
  | task_node tn => Some (reference_id tn)
  | workflow_node (launchplan_ref id) => Some id
  | workflow_node (sub_workflow_ref id) => Some id
  | _ => None
  end.

(** The node with its reference identifier replaced and nothing else
    touched. *)
Definition with_node_ref (id : Identifier) (node : Node) : Node :=
  match target node with
  | task_node tn =>
      mkNode (node_id node) (node_rest node) (task_node (mkTaskNode id (task_overrides tn)))
  | workflow_node (launchplan_ref _) =>
      mkNode (node_id node) (node_rest node) (workflow_node (launchplan_ref id))
  | workflow_node (sub_workflow_ref _) =>
      mkNode (node_id node) (node_rest node) (workflow_node (sub_workflow_ref id))
  | _ => node
  end.

(** A resource type outside the three the dispatch names. *)
Definition unrecognized (identifier : Identifier) : Prop :=
  resource_type identifier <> LAUNCH_PLAN /\
  resource_type identifier <> TASK /\
  resource_type identifier <> WORKFLOW.

(** Case-insensitive comparison, stated without [lower]: two characters
    are the same letter when they are equal, or when one is an upper-case
    ASCII letter and the other is the lower-case letter 32 code points
    above it; two strings are the same up to case when they have the same
    length and hold the same letter at every position. *)
Definition is_upper (c : ascii) : bool :=
  ((65 <=? nat_of_ascii c)%nat && (nat_of_ascii c <=? 90)%nat)%bool.

Definition same_letter (c1 c2 : ascii) : bool :=
  (Ascii.eqb c1 c2
   || (is_upper c1 && (nat_of_ascii c1 + 32 =? nat_of_ascii c2)%nat)
   || (is_upper c2 && (nat_of_ascii c2 + 32 =? nat_of_ascii c1)%nat))%bool.

Fixpoint same_up_to_case (s1 s2 : string) : bool :=
  match s1, s2 with
  | EmptyString, EmptyString => true
  | String c1 s1', String c2 s2' => same_letter c1 c2 && same_up_to_case s1' s2'
  | _, _ => false
  end.

(** A string without upper-case ASCII letters. *)
Fixpoint no_upper (s : string) : bool :=
  match s with
  | EmptyString => true
  | String c s' => negb (is_upper c) && no_upper s'
  end.

(** Whether a character occurs in a string. *)
Fixpoint occurs (c : ascii) (s : string) : bool :=
  match s with
  | EmptyString => false
  | String c' s' => Ascii.eqb c' c || occurs c s'
  end.

(** The argument string [key=value]. *)
Definition key_value (k v : string) : string := k +:+ "=" +:+ v.

(** An identifier with none of the three coordinates left empty, and a
    context that can fill every one of them. *)
Definition qualified (identifier : Identifier) : Prop :=
  project identifier <> "" /\ domain identifier <> "" /\ version identifier <> "".

Definition complete (ctx : Context) : Prop :=
  ctx_project ctx <> "" /\ ctx_domain ctx <> "" /\ ctx_version ctx <> "".

(** The context that answers with [first] where it has a value and with
    [second] elsewhere. *)
Definition context_or (first second : Context) : Context :=
  mkContext (py_or (ctx_project first) (ctx_project second))
            (py_or (ctx_domain first) (ctx_domain second))
            (py_or (ctx_version first) (ctx_version second)).


Definition is_returned (o : outcome) : bool :=
  match o with
  | Returned _ _ => true
  | Raised _ _ => false
  end.

(** The entity is of the message type that the dispatch expects for the
    resource type: a launch plan spec for LAUNCH_PLAN, any message with a
    [template] for TASK, a workflow spec for everything else. *)
Definition dispatch_fits (kind : Z) (entity : Entity) : Prop :=
  match entity with
  | LaunchPlanSpec _ _ => kind = LAUNCH_PLAN
  | TaskSpec _ => kind = TASK
  | WorkflowSpec _ _ => kind <> LAUNCH_PLAN
  end.

(** * Identifier hydration *)

Lemma py_or_idem (a b : string) : py_or (py_or a b) b = py_or a b.
Proof. destruct a; [destruct b |]; reflexivity. Qed.

Lemma py_or_nonempty (a b : string) : a <> "" -> py_or a b = a.
Proof. destruct a; [congruence | reflexivity]. Qed.

Lemma py_or_decide (a b : string) :
  py_or a b = if decide (a = "") then b else a.
Proof. destruct a; reflexivity. Qed.

(** C1: the identifier returned by [_hydrate_identifier] has the input's
    project where that is non-empty and the context's project otherwise,
    likewise for domain and version; name and resource type are the
    input's. *)
Theorem hydrate_identifier_fields (ctx : Context) (identifier : Identifier) :
  let hydrated := _hydrate_identifier ctx identifier in
  project hydrated
    = (if decide (project identifier = "") then ctx_project ctx else project identifier) /\
  domain hydrated
    = (if decide (domain identifier = "") then ctx_domain ctx else domain identifier) /\
  version hydrated
    = (if decide (version identifier = "") then ctx_version ctx else version identifier) /\
  name hydrated = name identifier /\
  resource_type hydrated = resource_type identifier.
Proof.
  destruct identifier as [k p d n v]; cbn.
  rewrite !py_or_decide. repeat split.
Qed.

(** C9: hydrating an already hydrated identifier with the same context
    gives the same identifier. *)
Theorem hydrate_identifier_idempotent (ctx : Context) (identifier : Identifier) :
  _hydrate_identifier ctx (_hydrate_identifier ctx identifier)
  = _hydrate_identifier ctx identifier.
Proof.
  destruct identifier as [k p d n v]; unfold _hydrate_identifier; cbn.
  by rewrite !py_or_idem.
Qed.

Example hydrate_identifier_scenario :
  _hydrate_identifier (mkContext "p" "d" "v1") (mkIdentifier TASK "" "dev" "n" "")
  = mkIdentifier TASK "p" "dev" "n" "v1".
Proof. reflexivity. Qed.

(** * Template hydration *)

Lemma refresh_nodes_map (ctx : Context) (todo refreshed_nodes : list Node) :
  refresh_nodes ctx todo refreshed_nodes = refreshed_nodes ++ map (hydrate_node ctx) todo.
Proof.
  revert refreshed_nodes; induction todo as [|node todo IH]; intros acc; cbn.
  - by rewrite app_nil_r.
  - by rewrite IH, <- app_assoc.
Qed.

Lemma hydrate_workflow_template_nodes (ctx : Context) (template : WorkflowTemplate) :
  nodes (_hydrate_workflow_template ctx template) = map (hydrate_node ctx) (nodes template).
Proof. unfold _hydrate_workflow_template; cbn. by rewrite refresh_nodes_map. Qed.

(** Case split on the [target] oneof and, inside a workflow node, on its
    [reference] oneof. *)
Ltac node_cases node := destruct node as [? ? [?|[?|?|]|?|]].

Lemma hydrate_node_kind (ctx : Context) (node : Node) :
  node_kind (hydrate_node ctx node) = node_kind node.
Proof.
  node_cases node; reflexivity.
Qed.

Lemma hydrate_node_ref (ctx : Context) (node : Node) :
  hydrate_node ctx node
  = match node_ref node with
    | Some id => with_node_ref (_hydrate_identifier ctx id) node
    | None => node
    end.
Proof.
  node_cases node; reflexivity.
Qed.

(** C4: [_hydrate_workflow_template] returns as many nodes as it was
    given, in the same order: the node at each index has the kind of the
    input node at that index and is that node with its reference
    identifier hydrated; a node that is neither a task node nor a workflow
    node is returned as it is, and so are the template's other fields. *)
Theorem hydrate_workflow_template_preserves_nodes
    (ctx : Context) (template : WorkflowTemplate) :
  let hydrated := _hydrate_workflow_template ctx template in
  length (nodes hydrated) = length (nodes template) /\
  (forall (i : nat) (node : Node), nodes template !! i = Some node ->
     exists node', nodes hydrated !! i = Some node' /\
       node_kind node' = node_kind node /\
       node_id node' = node_id node /\
       node_rest node' = node_rest node /\
       node' = match node_ref node with
               | Some id => with_node_ref (_hydrate_identifier ctx id) node
               | None => node
               end /\
       (node_kind node <> KTask ->
        node_kind node <> KWorkflowLaunchPlan ->
        node_kind node <> KWorkflowSubWorkflow -> node' = node)) /\
  wt_id hydrated = wt_id template /\
  wt_rest hydrated = wt_rest template.
Proof.
  cbn zeta. rewrite hydrate_workflow_template_nodes.
  split; [by rewrite length_map|]. split; [|done].
  intros i node Hi. exists (hydrate_node ctx node).
  split; [by rewrite list_lookup_fmap, Hi|].
  split; [apply hydrate_node_kind|].
  split; [by node_cases node|].
  split; [by node_cases node|].
  split; [apply hydrate_node_ref|].
  node_cases node; cbn; intros; congruence.
Qed.

Example hydrate_workflow_template_example :
  nodes (_hydrate_workflow_template (mkContext "p" "d" "v")
    (mkWorkflowTemplate (mkIdentifier WORKFLOW "" "" "wf" "") "iface"
      [ mkNode "n0" "" (task_node (mkTaskNode (mkIdentifier TASK "" "dev" "t" "") "o"));
        mkNode "n1" "" (other_node "branch");
        mkNode "n2" "" (workflow_node (launchplan_ref (mkIdentifier LAUNCH_PLAN "q" "" "lp" ""))) ]))
  = [ mkNode "n0" "" (task_node (mkTaskNode (mkIdentifier TASK "p" "dev" "t" "v") "o"));
      mkNode "n1" "" (other_node "branch");
      mkNode "n2" "" (workflow_node (launchplan_ref (mkIdentifier LAUNCH_PLAN "q" "d" "lp" "v"))) ].
Proof. reflexivity. Qed.

(** * Registration parameter resolution *)

Lemma refresh_sub_workflows_map (ctx : Context) (todo refreshed : list WorkflowTemplate) :
  refresh_sub_workflows ctx todo refreshed
  = refreshed ++ map (_hydrate_workflow_template ctx) todo.
Proof.
  revert refreshed; induction todo as [|t todo IH]; intros acc; cbn [refresh_sub_workflows map].
  - by rewrite app_nil_r.
  - by rewrite IH, <- app_assoc.
Qed.

Lemma hydrate_identifier_resource_type (ctx : Context) (identifier : Identifier) :
  resource_type (_hydrate_identifier ctx identifier) = resource_type identifier.
Proof. reflexivity. Qed.

(** The three branches of the dispatch, one equation each. *)
Lemma hydrate_registration_launch_plan (identifier : Identifier) (ctx : Context) (entity : Entity) :
  resource_type identifier = LAUNCH_PLAN ->
  hydrate_registration_parameters identifier ctx entity
  = match entity with
    | LaunchPlanSpec workflow_id rest =>
        Returned (_hydrate_identifier ctx identifier)
                 (LaunchPlanSpec (_hydrate_identifier ctx workflow_id) rest)
    | _ => Raised (AttributeError "workflow_id") entity
    end.
Proof.
  intros Hk. unfold hydrate_registration_parameters.
  rewrite hydrate_identifier_resource_type, Hk. reflexivity.
Qed.

Lemma hydrate_registration_task (identifier : Identifier) (ctx : Context) (entity : Entity) :
  resource_type identifier = TASK ->
  hydrate_registration_parameters identifier ctx entity
  = match set_template_id (_hydrate_identifier ctx identifier) entity with
    | inl e => Raised e entity
    | inr entity' => Returned (_hydrate_identifier ctx identifier) entity'
    end.
Proof.
  intros Hk. unfold hydrate_registration_parameters.
  rewrite hydrate_identifier_resource_type, Hk. reflexivity.
Qed.

Lemma hydrate_registration_fall_through
    (identifier : Identifier) (ctx : Context) (entity : Entity) :
  resource_type identifier <> LAUNCH_PLAN ->
  resource_type identifier <> TASK ->
  hydrate_registration_parameters identifier ctx entity
  = match set_template_id (_hydrate_identifier ctx identifier) entity with
    | inl e => Raised e entity
    | inr (WorkflowSpec t sub_workflows) =>
        Returned (_hydrate_identifier ctx identifier)
                 (WorkflowSpec t (map (_hydrate_workflow_template ctx) sub_workflows))
    | inr entity' => Raised (AttributeError "sub_workflows") entity'
    end.
Proof.
  intros Hlp Htask. unfold hydrate_registration_parameters.
  rewrite hydrate_identifier_resource_type.
  destruct (Z.eqb_spec (resource_type identifier) LAUNCH_PLAN) as [|_]; [done|].
  destruct (Z.eqb_spec (resource_type identifier) TASK) as [|_]; [done|].
  destruct entity as [w r|t|t subs]; cbn [set_template_id]; try reflexivity.
  by rewrite refresh_sub_workflows_map.
Qed.

(** C3: for a top identifier of kind TASK or WORKFLOW and an entity that
    has a template, the entity's [template.id] after the call is exactly
    the hydrated top identifier, whatever the template id held before; the
    call returns the hydrated identifier with that entity for a task spec
    of kind TASK and for a workflow spec. *)
Theorem template_id_overwritten
    (identifier : Identifier) (ctx : Context) (entity : Entity) (previous : Identifier) :
  resource_type identifier = TASK \/ resource_type identifier = WORKFLOW ->
  template_id entity = Some previous ->
  let after := hydrate_registration_parameters identifier ctx entity in
  template_id (entity_of after) = Some (_hydrate_identifier ctx identifier) /\
  (resource_type identifier = TASK \/ (exists t subs, entity = WorkflowSpec t subs) ->
   exists entity', after = Returned (_hydrate_identifier ctx identifier) entity' /\
     template_id entity' = Some (_hydrate_identifier ctx identifier)).
Proof.
  intros [Hk|Hk] Hprev after; subst after.
  - rewrite hydrate_registration_task by done.
    destruct entity as [w r|t|t subs]; [discriminate| |]; cbn; eauto.
  - rewrite hydrate_registration_fall_through by (rewrite Hk; done).
    destruct entity as [w r|t|t subs]; [discriminate| |]; cbn.
    + split; [done|]. intros [Hc|(t' & subs & Hc)]; [|discriminate].
      rewrite Hk in Hc; discriminate.
    + eauto.
Qed.

Lemma template_id_overwritten_witness :
  (resource_type (mkIdentifier TASK "" "dev" "t" "") = TASK \/
   resource_type (mkIdentifier TASK "" "dev" "t" "") = WORKFLOW) /\
  template_id (TaskSpec (mkTaskTemplate (mkIdentifier TASK "old" "old" "old" "old") "body"))
  = Some (mkIdentifier TASK "old" "old" "old" "old") /\
  template_id
    (entity_of
       (hydrate_registration_parameters
          (mkIdentifier TASK "" "dev" "t" "") (mkContext "p" "d" "v1")
          (TaskSpec (mkTaskTemplate (mkIdentifier TASK "old" "old" "old" "old") "body"))))
  = Some (mkIdentifier TASK "p" "dev" "t" "v1").
Proof.
  split; [left; reflexivity|]. split; [reflexivity|].
  refine (proj1 (template_id_overwritten
            (mkIdentifier TASK "" "dev" "t" "") (mkContext "p" "d" "v1")
            (TaskSpec (mkTaskTemplate (mkIdentifier TASK "old" "old" "old" "old") "body"))
            (mkIdentifier TASK "old" "old" "old" "old") _ _)).
  - left; reflexivity.
  - reflexivity.
Defined.

(** C2, as the code has it: a resource type that is neither LAUNCH_PLAN
    nor TASK, recognized or not, takes the workflow branch.  A workflow
    spec is returned with its template id overwritten and its
    sub-workflows hydrated; the only exception is the attribute error of
    an entity without a [template] or a [sub_workflows] field. *)
Theorem other_kinds_take_workflow_branch
    (identifier : Identifier) (ctx : Context) (entity : Entity) :
  resource_type identifier <> LAUNCH_PLAN ->
  resource_type identifier <> TASK ->
  let hydrated := _hydrate_identifier ctx identifier in
  hydrate_registration_parameters identifier ctx entity
  = match entity with
    | WorkflowSpec t sub_workflows =>
        Returned hydrated
          (WorkflowSpec (mkWorkflowTemplate hydrated (wt_rest t) (nodes t))
                        (map (_hydrate_workflow_template ctx) sub_workflows))
    | TaskSpec t =>
        Raised (AttributeError "sub_workflows") (TaskSpec (mkTaskTemplate hydrated (tt_rest t)))
    | LaunchPlanSpec _ _ => Raised (AttributeError "template") entity
    end.
Proof.
  intros Hlp Htask hydrated. rewrite hydrate_registration_fall_through by done.
  destruct entity; reflexivity.
Qed.

Lemma other_kinds_take_workflow_branch_witness :
  resource_type (mkIdentifier UNSPECIFIED "" "" "wf" "") <> LAUNCH_PLAN /\
  resource_type (mkIdentifier UNSPECIFIED "" "" "wf" "") <> TASK /\
  hydrate_registration_parameters
    (mkIdentifier UNSPECIFIED "" "" "wf" "") (mkContext "p" "d" "v")
    (WorkflowSpec (mkWorkflowTemplate (mkIdentifier WORKFLOW "x" "y" "old" "z") "" []) [])
  = Returned (mkIdentifier UNSPECIFIED "p" "d" "wf" "v")
      (WorkflowSpec (mkWorkflowTemplate (mkIdentifier UNSPECIFIED "p" "d" "wf" "v") "" []) []).
Proof.
  assert (Hlp : resource_type (mkIdentifier UNSPECIFIED "" "" "wf" "") <> LAUNCH_PLAN)
    by (cbn; unfold LAUNCH_PLAN, UNSPECIFIED; lia).
  assert (Htask : resource_type (mkIdentifier UNSPECIFIED "" "" "wf" "") <> TASK)
    by (cbn; unfold TASK, UNSPECIFIED; lia).
  split; [exact Hlp|]. split; [exact Htask|].
  exact (other_kinds_take_workflow_branch
           (mkIdentifier UNSPECIFIED "" "" "wf" "") (mkContext "p" "d" "v")
           (WorkflowSpec (mkWorkflowTemplate (mkIdentifier WORKFLOW "x" "y" "old" "z") "" []) [])
           Hlp Htask).
Defined.

(** C2, as stated, fails: an identifier whose resource type is none of
    the three, passed with a workflow spec, is hydrated and returned. *)
Lemma unrecognized_kind_is_returned :
  unrecognized (mkIdentifier UNSPECIFIED "" "" "wf" "") /\
  hydrate_registration_parameters
    (mkIdentifier UNSPECIFIED "" "" "wf" "") (mkContext "p" "d" "v")
    (WorkflowSpec (mkWorkflowTemplate (mkIdentifier WORKFLOW "" "" "old" "") "" [])
       [mkWorkflowTemplate (mkIdentifier WORKFLOW "" "" "sub" "") ""
          [mkNode "n0" "" (task_node (mkTaskNode (mkIdentifier TASK "" "" "t" "") ""))]])
  = Returned (mkIdentifier UNSPECIFIED "p" "d" "wf" "v")
      (WorkflowSpec (mkWorkflowTemplate (mkIdentifier UNSPECIFIED "p" "d" "wf" "v") "" [])
         [mkWorkflowTemplate (mkIdentifier WORKFLOW "" "" "sub" "") ""
            [mkNode "n0" "" (task_node (mkTaskNode (mkIdentifier TASK "p" "d" "t" "v") ""))]]).
Proof.
  split; [|reflexivity].
  unfold unrecognized, LAUNCH_PLAN, TASK, WORKFLOW, UNSPECIFIED; cbn. lia.
Qed.

(** * The boolean parser *)

Lemma lower_ascii_same_letter (c a : ascii) :
  is_upper a = false -> (lower_ascii c = a <-> same_letter c a = true).
Proof.
  intros Ha. unfold lower_ascii, same_letter. fold (is_upper c). rewrite Ha.
  rewrite andb_false_l, orb_false_r.
  pose proof (nat_ascii_bounded c) as Hc.
  destruct (is_upper c) eqn:Hup; rewrite ?andb_true_l, ?andb_false_l, ?orb_false_r.
  - assert (Hrange : (65 <= nat_of_ascii c <= 90)%nat).
    { unfold is_upper in Hup. apply andb_true_iff in Hup as [H1 H2].
      apply Nat.leb_le in H1, H2. lia. }
    assert (Hne : Ascii.eqb c a = false).
    { apply Ascii.eqb_neq. intros ->. congruence. }
    rewrite Hne, orb_false_l, Nat.eqb_eq. split.
    + intros <-. rewrite nat_ascii_embedding by lia. reflexivity.
    + intros Heq. rewrite Heq. apply ascii_nat_embedding.
  - apply (iff_sym (Ascii.eqb_eq c a)).
Qed.

Lemma lower_same_up_to_case (w s : string) :
  no_upper w = true -> (lower s = w <-> same_up_to_case s w = true).
Proof.
  revert w; induction s as [|c s IH]; intros [|a w]; cbn; try (split; congruence).
  intros [Ha Hw]%andb_true_iff. apply negb_true_iff in Ha.
  rewrite andb_true_iff, <- (IH w Hw), <- (lower_ascii_same_letter c a Ha).
  split; [intros [= -> ->]; done | intros [-> ->]; done].
Qed.

Lemma false_words_no_upper (w : string) :
  In w ["false"; "0"; "off"; "no"] -> no_upper w = true.
Proof. intros [<-|[<-|[<-|[<-|[]]]]]; reflexivity. Qed.

(** C6: [str2bool] returns false exactly for the strings that are, up to
    the case of their letters, one of "false", "0", "off", "no" (which is
    to say that their lowered form is one of the four), and true for
    every other string, the empty one included. *)
Theorem str2bool_false_iff (s : string) :
  (str2bool s = false <->
   exists w, In w ["false"; "0"; "off"; "no"] /\ same_up_to_case s w = true) /\
  (str2bool s = true <->
   forall w, In w ["false"; "0"; "off"; "no"] -> same_up_to_case s w = false) /\
  (str2bool s = false <-> In (lower s) ["false"; "0"; "off"; "no"]) /\
  str2bool "" = true.
Proof.
  assert (Hlower : str2bool s = false <-> In (lower s) ["false"; "0"; "off"; "no"]).
  { unfold str2bool, false_words. rewrite negb_false_iff, existsb_exists. split.
    - intros (w & Hw & Heq). apply String.eqb_eq in Heq. by subst.
    - intros Hin. exists (lower s). split; [done | apply String.eqb_refl]. }
  assert (Hfalse : str2bool s = false <->
    exists w, In w ["false"; "0"; "off"; "no"] /\ same_up_to_case s w = true).
  { rewrite Hlower. split.
    - intros Hin. exists (lower s). split; [done|].
      by apply lower_same_up_to_case; [apply false_words_no_upper|].
    - intros (w & Hin & Hsame).
      apply lower_same_up_to_case in Hsame; [|by apply false_words_no_upper].
      by rewrite Hsame. }
  split; [exact Hfalse|]. split; [|split; [exact Hlower | reflexivity]].
  split.
  - intros Htrue w Hin. destruct (same_up_to_case s w) eqn:Hsame; [|done].
    assert (str2bool s = false) by (apply Hfalse; eauto). congruence.
  - intros Hnone. destruct (str2bool s) eqn:Hb; [done|].
    destruct (proj1 Hfalse eq_refl) as (w & Hin & Hsame).
    rewrite (Hnone w Hin) in Hsame. discriminate.
Qed.

Example same_up_to_case_examples :
  map (fun p => same_up_to_case p.1 p.2)
      [("False", "false"); ("FALSE", "false"); ("NO", "no"); ("oFf", "off"); ("0", "0");
       ("", "no"); ("n", "no"); ("no ", "no"); ("P", "0"); ("n@", "no"); ("fa1se", "false")]
  = [true; true; true; true; true; false; false; false; false; false; false].
Proof. reflexivity. Qed.

Example str2bool_false_inputs :
  map str2bool ["False"; "0"; "Off"; "NO"; "fAlSe"] = [false; false; false; false; false].
Proof. reflexivity. Qed.

Example str2bool_true_inputs :
  map str2bool [""; "true"; "yes"; "1"; "n"; "no "; "00"] = [true; true; true; true; true; true; true].
Proof. reflexivity. Qed.

(** * Splitting arguments *)

Lemma key_value_cons (c : ascii) (k v : string) :
  key_value (String c k) v = String c (key_value k v).
Proof. reflexivity. Qed.

Lemma key_value_nil (v : string) : key_value "" v = String "=" v.
Proof. reflexivity. Qed.

Lemma str_split1_absent (sep : ascii) (s : string) :
  occurs sep s = false -> str_split1 sep s = [s].
Proof.
  induction s as [|c s IH]; cbn; [done|].
  intros [Hc Hs]%orb_false_iff. rewrite Hc, IH by done. reflexivity.
Qed.

Lemma str_split1_key_value (k v : string) :
  occurs "=" k = false -> str_split1 "=" (key_value k v) = [k; v].
Proof.
  induction k as [|c k IH]; [reflexivity|].
  cbn [occurs]. intros [Hc Hk]%orb_false_iff.
  rewrite key_value_cons. cbn [str_split1]. rewrite Hc, IH by done. reflexivity.
Qed.

Lemma occurs_key_value (s : string) :
  occurs "=" s = true -> exists k v, s = key_value k v /\ occurs "=" k = false.
Proof.
  induction s as [|c s IH]; cbn [occurs]; [done|].
  destruct (Ascii.eqb_spec c "=") as [->|Hne]; cbn [orb].
  - intros _. exists "", s. done.
  - intros (k & v & -> & Hk)%IH. exists (String c k), v.
    split; [done|]. cbn [occurs]. rewrite Hk.
    by destruct (Ascii.eqb_spec c "=").
Qed.

Lemma key_value_occurs (k v : string) : occurs "=" (key_value k v) = true.
Proof.
  induction k as [|c k IH]; [reflexivity|].
  rewrite key_value_cons. cbn [occurs]. rewrite IH. apply orb_true_r.
Qed.

Lemma key_value_inj (k k' v v' : string) :
  occurs "=" k = false -> occurs "=" k' = false ->
  key_value k v = key_value k' v' -> k = k' /\ v = v'.
Proof.
  intros Hk Hk' Heq.
  pose proof (str_split1_key_value k v Hk) as H1.
  pose proof (str_split1_key_value k' v' Hk') as H2.
  rewrite Heq, H2 in H1. by injection H1 as -> ->.
Qed.

(** One step of the dict comprehension. *)
Lemma dict_of_splits_cons_key_value
    (k v : string) (splits : list (list string)) (d : gmap string string) :
  occurs "=" k = false ->
  dict_of_splits (str_split1 "=" (key_value k v) :: splits) d
  = dict_of_splits splits (<[k := v]> d).
Proof. intros Hk. cbn [dict_of_splits]. by rewrite str_split1_key_value. Qed.

Lemma dict_of_splits_cons_absent
    (a : string) (splits : list (list string)) (d : gmap string string) :
  occurs "=" a = false ->
  dict_of_splits (str_split1 "=" a :: splits) d = Err IndexError.
Proof. intros Ha. cbn [dict_of_splits]. by rewrite str_split1_absent. Qed.

Lemma dict_of_splits_pairs (pairs : list (string * string)) (d : gmap string string) :
  Forall (fun p => occurs "=" p.1 = false) pairs ->
  dict_of_splits (map (str_split1 "=") (map (fun p => key_value p.1 p.2) pairs)) d
  = Ok (foldl (fun d p => <[p.1 := p.2]> d) d pairs).
Proof.
  intros Hall; revert d; induction Hall as [|[k v] pairs Hk _ IH]; intros d; [done|].
  cbn [map fst snd foldl]. rewrite dict_of_splits_cons_key_value by done. apply IH.
Qed.

Lemma key_value_pairs (input_arguments : list string) :
  (forall a, a ∈ input_arguments -> occurs "=" a = true) ->
  exists pairs, input_arguments = map (fun p => key_value p.1 p.2) pairs /\
    Forall (fun p => occurs "=" p.1 = false) pairs.
Proof.
  induction input_arguments as [|a l IH]; intros Hall.
  - by exists [].
  - destruct IH as (pairs & -> & Hpairs); [intros; apply Hall; set_solver|].
    destruct (occurs_key_value a) as (k & v & -> & Hk); [apply Hall; set_solver|].
    exists ((k, v) :: pairs). split; [done | by constructor].
Qed.

Lemma foldl_insert_notin (pairs : list (string * string)) (d : gmap string string) (k : string) :
  k ∉ pairs.*1 ->
  foldl (fun d p => <[p.1 := p.2]> d) d pairs !! k = d !! k.
Proof.
  revert d; induction pairs as [|[k' v'] pairs IH]; intros d Hk; [done|].
  cbn [fmap list_fmap fst] in Hk. apply not_elem_of_cons in Hk as [Hne Hk].
  cbn [foldl fst snd]. rewrite IH by done.
  by apply lookup_insert_ne.
Qed.

Lemma foldl_insert_lookup (pairs : list (string * string)) (d : gmap string string) (k v : string) :
  foldl (fun d p => <[p.1 := p.2]> d) d pairs !! k = Some v ->
  (k, v) ∈ pairs \/ d !! k = Some v.
Proof.
  revert d; induction pairs as [|[k' v'] pairs IH]; intros d; [by right|].
  cbn [foldl fst snd]. intros [Hin|Hd]%IH; [left; set_solver|].
  destruct (decide (k' = k)) as [->|Hne].
  - rewrite lookup_insert_eq in Hd. injection Hd as ->. left; set_solver.
  - rewrite lookup_insert_ne in Hd by done. by right.
Qed.

(** C8: on arguments that all have the form [key=value], every entry is
    split at its first "=" only (the value keeps any further "="), and
    the mapping returned holds, for each key, the value of the last entry
    with that key. *)
Theorem parse_args_first_equals_last_wins (input_arguments : list string) :
  (forall a, a ∈ input_arguments -> occurs "=" a = true) ->
  exists d, parse_args_into_dict input_arguments = Ok d /\
    (forall a, a ∈ input_arguments ->
       exists k v, a = key_value k v /\ occurs "=" k = false /\
         str_split1 "=" a = [k; v] /\ is_Some (d !! k)) /\
    (forall before k v after,
       input_arguments = before ++ key_value k v :: after ->
       occurs "=" k = false ->
       (forall v', key_value k v' ∉ after) ->
       d !! k = Some v) /\
    (forall k v, d !! k = Some v ->
       occurs "=" k = false /\ key_value k v ∈ input_arguments).
Proof.
  intros Hall. destruct (key_value_pairs _ Hall) as (pairs & -> & Hpairs).
  unfold parse_args_into_dict. rewrite dict_of_splits_pairs by done.
  eexists; split; [reflexivity|].
  assert (Hlast : forall before k v after,
    map (fun p => key_value p.1 p.2) pairs = before ++ key_value k v :: after ->
    occurs "=" k = false -> (forall v', key_value k v' ∉ after) ->
    foldl (fun d p => <[p.1 := p.2]> d) (∅ : gmap string string) pairs !! k = Some v).
  { intros before k v after Heq Hk Hafter.
    apply fmap_app_inv in Heq as (pb & pa' & -> & Hrest & ->).
    symmetry in Hrest. apply fmap_cons_inv in Hrest as ([k' v'] & pa & Hkv & -> & ->).
    cbn [fst snd] in Hkv.
    apply Forall_app in Hpairs as [_ Hpa]. apply Forall_cons in Hpa as [Hk' Hpa].
    destruct (key_value_inj k k' v v' Hk Hk' Hkv) as [<- <-].
    rewrite foldl_app. cbn [foldl fst snd].
    rewrite foldl_insert_notin; [apply lookup_insert_eq|].
    intros ([k2 v2] & Hk2 & Hin)%list_elem_of_fmap. cbn in Hk2; subst k2.
    apply (Hafter v2). apply list_elem_of_fmap. by exists (k, v2). }
  split; [|split; [exact Hlast|]].
  - intros a ([k v] & -> & Hin)%list_elem_of_fmap. cbn [fst snd].
    pose proof (proj1 (Forall_forall _ _) Hpairs _ Hin) as Hk. cbn in Hk.
    exists k, v. split; [done|]. split; [done|]. split; [by apply str_split1_key_value|].
    clear Hall Hlast. induction pairs as [|[k0 v0] pairs IH] using rev_ind; [set_solver|].
    apply Forall_app in Hpairs as [Hpairs _].
    rewrite foldl_app. cbn [foldl fst snd].
    destruct (decide (k0 = k)) as [->|Hne]; [rewrite lookup_insert_eq; eauto|].
    rewrite lookup_insert_ne by done. apply IH; [done|].
    apply elem_of_app in Hin as [Hin|Hin]; [done|].
    apply list_elem_of_singleton in Hin. congruence.
  - intros k v [Hin|Hd]%foldl_insert_lookup; [|by rewrite lookup_empty in Hd].
    split; [exact (proj1 (Forall_forall _ _) Hpairs _ Hin)|].
    apply list_elem_of_fmap. by exists (k, v).
Qed.

Lemma parse_args_first_equals_last_wins_witness :
  (forall a, a ∈ ["a=b=c"; "x=1"; "x=2"] -> occurs "=" a = true) /\
  exists d, parse_args_into_dict ["a=b=c"; "x=1"; "x=2"] = Ok d /\
    d !! "a" = Some "b=c" /\ d !! "x" = Some "2".
Proof.
  assert (Hall : forall a, a ∈ ["a=b=c"; "x=1"; "x=2"] -> occurs "=" a = true).
  { intros a Ha. repeat (apply elem_of_cons in Ha as [->|Ha]; [reflexivity|]).
    by apply elem_of_nil in Ha. }
  split; [exact Hall|].
  destruct (parse_args_first_equals_last_wins ["a=b=c"; "x=1"; "x=2"] Hall)
    as (d & Hd & _ & Hlast & _).
  exists d. split; [exact Hd|]. split.
  - apply (Hlast [] "a" "b=c" ["x=1"; "x=2"]); [reflexivity | reflexivity |].
    intros v' Hin. repeat (apply elem_of_cons in Hin as [Heq|Hin]; [discriminate Heq|]).
    by apply elem_of_nil in Hin.
  - apply (Hlast ["a=b=c"; "x=1"] "x" "2" []); [reflexivity | reflexivity |].
    intros v' Hin. by apply elem_of_nil in Hin.
Defined.

Example parse_args_example :
  parse_args_into_dict ["input_b=mystr"; "input_c=18"; "input_b=a=b"]
  = Ok (<["input_b" := "a=b"]> (<["input_c" := "18"]> (<["input_b" := "mystr"]> ∅))).
Proof. reflexivity. Qed.

Example split_first_equals : str_split1 "=" "a=b=c" = ["a"; "b=c"].
Proof. reflexivity. Qed.

Lemma dict_of_splits_outcome (input_arguments : list string) (d : gmap string string) :
  (Forall (fun a => occurs "=" a = true) input_arguments /\
   exists d', dict_of_splits (map (str_split1 "=") input_arguments) d = Ok d') \/
  (Exists (fun a => occurs "=" a = false) input_arguments /\
   dict_of_splits (map (str_split1 "=") input_arguments) d = Err IndexError).
Proof.
  revert d; induction input_arguments as [|a l IH]; intros d.
  - left. split; [constructor | by exists d].
  - cbn [map]. destruct (occurs "=" a) eqn:Ha.
    + destruct (occurs_key_value a Ha) as (k & v & -> & Hk).
      rewrite dict_of_splits_cons_key_value by done.
      destruct (IH (<[k := v]> d)) as [[Hl Hd]|[Hl Hd]].
      * left. split; [by constructor | done].
      * right. split; [by apply Exists_cons_tl | done].
    + right. split; [by apply Exists_cons_hd | by apply dict_of_splits_cons_absent].
Qed.

(** C10: [parse_args_into_dict] raises [IndexError] exactly on the inputs
    that have an entry without "=", and returns a mapping exactly on the
    inputs whose entries all contain one. *)
Theorem parse_args_partial (input_arguments : list string) :
  (parse_args_into_dict input_arguments = Err IndexError
   <-> exists a, a ∈ input_arguments /\ occurs "=" a = false) /\
  ((exists d, parse_args_into_dict input_arguments = Ok d)
   <-> forall a, a ∈ input_arguments -> occurs "=" a = true).
Proof.
  unfold parse_args_into_dict.
  destruct (dict_of_splits_outcome input_arguments ∅) as [[Hall [d Hd]]|[Hex Hd]];
    rewrite Hd.
  - rewrite Forall_forall in Hall. split; split.
    + discriminate.
    + intros (a & Hin & Ha). rewrite (Hall a Hin) in Ha. discriminate.
    + done.
    + eauto.
  - rewrite Exists_exists in Hex. split; split.
    + done.
    + done.
    + intros [d ?]; discriminate.
    + intros Hall. destruct Hex as (a & Hin & Ha). rewrite (Hall a Hin) in Ha. discriminate.
Qed.

Example parse_args_no_equals :
  parse_args_into_dict ["a=1"; "oops"; "b=2"] = Err IndexError.
Proof. reflexivity. Qed.

(** * Literal maps *)

Section LiteralConstructionFacts.

Context {LiteralType SdkType Literal : Type}.
Variable get_sdk_type : LiteralType -> result SdkType.
Variable from_string : SdkType -> string -> result Literal.

Lemma supplied_Some (text_args : gmap string (option string)) (n s : string) :
  supplied text_args n = Some s <-> text_args !! n = Some (Some s).
Proof.
  unfold supplied. destruct (text_args !! n) as [[s'|]|]; split; congruence.
Qed.

Lemma supplied_None (text_args : gmap string (option string)) (n : string) :
  supplied text_args n = None <-> text_args !! n = None \/ text_args !! n = Some None.
Proof.
  unfold supplied. destruct (text_args !! n) as [[s'|]|]; split;
    try congruence; try tauto; intros [|]; congruence.
Qed.

Lemma variable_loop_spec (items : list (string * @Variable_ LiteralType))
    (text_args : gmap string (option string)) (inputs : gmap string Literal) :
  NoDup items.*1 ->
  match variable_loop get_sdk_type from_string items text_args inputs with
  | Ok m =>
      (forall n, n ∉ items.*1 -> m !! n = inputs !! n) /\
      (forall n v, (n, v) ∈ items ->
         match supplied text_args n with
         | Some s => exists lit, parsed_as get_sdk_type from_string (var_type v) s lit /\ m !! n = Some lit
         | None => m !! n = inputs !! n
         end)
  | Err e =>
      exists n v s, (n, v) ∈ items /\ supplied text_args n = Some s /\
        parse_raises get_sdk_type from_string (var_type v) s e
  end.
Proof.
  revert inputs; induction items as [|[n0 v0] items IH]; intros inputs Hnd.
  - cbn. split; [done|]. intros n v Hin. by apply elem_of_nil in Hin.
  - cbn [fmap list_fmap fst] in Hnd. apply NoDup_cons in Hnd as [Hn0 Hnd].
    cbn [variable_loop].
    destruct (supplied text_args n0) as [s|] eqn:Hs.
    + destruct (get_sdk_type (var_type v0)) as [sdk|e] eqn:Hsdk; cbn.
      2:{ exists n0, v0, s. split; [left|]. split; [done|]. by left. }
      destruct (from_string sdk s) as [lit|e] eqn:Hlit; cbn.
      2:{ exists n0, v0, s. split; [left|]. split; [done|]. right; eauto. }
      specialize (IH (<[n0 := lit]> inputs) Hnd).
      destruct (variable_loop _ _ items text_args _) as [m|e].
      * destruct IH as [Hout Hin]. split.
        -- intros n Hn. apply not_elem_of_cons in Hn as [Hne Hn].
           rewrite Hout by done. by apply lookup_insert_ne.
        -- intros n v [Heq|Hnv]%elem_of_cons.
           ++ injection Heq as -> ->. rewrite Hs. exists lit.
              split; [by exists sdk|]. rewrite Hout by done. apply lookup_insert_eq.
           ++ specialize (Hin n v Hnv).
              destruct (supplied text_args n); [done|].
              rewrite Hin. apply lookup_insert_ne. intros ->.
              apply Hn0. apply list_elem_of_fmap. by exists (n, v).
      * destruct IH as (n & v & s' & Hnv & Hs' & Hp).
        exists n, v, s'. split; [by right | done].
    + specialize (IH inputs Hnd).
      destruct (variable_loop _ _ items text_args _) as [m|e].
      * destruct IH as [Hout Hin]. split.
        -- intros n Hn. apply not_elem_of_cons in Hn as [Hne Hn]. by apply Hout.
        -- intros n v [Heq|Hnv]%elem_of_cons.
           ++ injection Heq as -> ->. rewrite Hs. by apply Hout.
           ++ by apply Hin.
      * destruct IH as (n & v & s' & Hnv & Hs' & Hp).
        exists n, v, s'. split; [by right | done].
Qed.

Lemma parameter_loop_spec (items : list (string * @Parameter_ LiteralType Literal))
    (text_args : gmap string (option string)) (inputs : gmap string Literal) :
  NoDup items.*1 ->
  match parameter_loop get_sdk_type from_string items text_args inputs with
  | Ok m =>
      (forall n, n ∉ items.*1 -> m !! n = inputs !! n) /\
      (forall n p, (n, p) ∈ items ->
         match supplied text_args n with
         | Some s =>
             exists lit, parsed_as get_sdk_type from_string (var_type (var p)) s lit /\
               m !! n = Some lit
         | None => required p = false /\ m !! n = Some (default p)
         end)
  | Err e =>
      exists n p, (n, p) ∈ items /\
        ((required p = true /\ supplied text_args n = None /\
          e = MissingRequiredParameter n) \/
         (exists s, supplied text_args n = Some s /\
            parse_raises get_sdk_type from_string (var_type (var p)) s e) \/
         (supplied text_args n = None /\ get_sdk_type (var_type (var p)) = Err e))
  end.
Proof.
  revert inputs; induction items as [|[n0 p0] items IH]; intros inputs Hnd.
  - cbn. split; [done|]. intros n p Hin. by apply elem_of_nil in Hin.
  - cbn [fmap list_fmap fst] in Hnd. apply NoDup_cons in Hnd as [Hn0 Hnd].
    cbn [parameter_loop].
    (* what the loop continues with once [n0] has been stored *)
    assert (Hstore : forall lit : Literal,
      match supplied text_args n0 with
      | Some s => parsed_as get_sdk_type from_string (var_type (var p0)) s lit
      | None => required p0 = false /\ lit = default p0
      end ->
      match parameter_loop get_sdk_type from_string items text_args (<[n0 := lit]> inputs) with
      | Ok m =>
          (forall n, n ∉ n0 :: items.*1 -> m !! n = inputs !! n) /\
          (forall n p, (n, p) ∈ (n0, p0) :: items ->
             match supplied text_args n with
             | Some s =>
                 exists lit, parsed_as get_sdk_type from_string (var_type (var p)) s lit /\
                   m !! n = Some lit
             | None => required p = false /\ m !! n = Some (default p)
             end)
      | Err e =>
          exists n p, (n, p) ∈ (n0, p0) :: items /\
            ((required p = true /\ supplied text_args n = None /\
              e = MissingRequiredParameter n) \/
             (exists s, supplied text_args n = Some s /\
                parse_raises get_sdk_type from_string (var_type (var p)) s e) \/
             (supplied text_args n = None /\ get_sdk_type (var_type (var p)) = Err e))
      end).
    { intros lit Hlit. specialize (IH (<[n0 := lit]> inputs) Hnd).
      destruct (parameter_loop _ _ items text_args _) as [m|e].
      - destruct IH as [Hout Hin]. split.
        + intros n Hn. apply not_elem_of_cons in Hn as [Hne Hn].
          rewrite Hout by done. by apply lookup_insert_ne.
        + intros n p [Heq|Hnp]%elem_of_cons; [|by apply Hin].
          injection Heq as -> ->. rewrite Hout by done. rewrite lookup_insert_eq.
          destruct (supplied text_args n0); [by exists lit|].
          destruct Hlit as [? ->]. done.
      - destruct IH as (n & p & Hnp & Hcase). exists n, p. split; [by right | done]. }
    destruct (get_sdk_type (var_type (var p0))) as [sdk|e] eqn:Hsdk; cbn.
    2:{ exists n0, p0. split; [left|].
        destruct (supplied text_args n0) as [s|] eqn:Hs.
        - right; left. exists s. split; [done|]. by left.
        - right; right. done. }
    destruct (required p0) eqn:Hreq;
      destruct (supplied text_args n0) as [s|] eqn:Hs.
    + destruct (from_string sdk s) as [lit|e] eqn:Hlit; cbn.
      * apply Hstore. by exists sdk.
      * exists n0, p0. split; [left|]. right; left. exists s. split; [done|].
        right. by exists sdk.
    + exists n0, p0. split; [left|]. left. done.
    + destruct (from_string sdk s) as [lit|e] eqn:Hlit; cbn.
      * apply Hstore. by exists sdk.
      * exists n0, p0. split; [left|]. right; left. exists s. split; [done|].
        right. by exists sdk.
    + apply Hstore. done.
Qed.

(** C7, as the code has it: when [construct_literal_map_from_variable_map]
    returns, the keys of the map are exactly the schema names that the
    argument map holds with a non-null value, each bound to what the type
    engine parsed from that value for the declared type; absent and null
    names are left out.  When it raises, the exception is the type
    engine's, for a supplied value of the schema; nothing else raises. *)
Theorem variable_map_keys_are_supplied_names
    (variable_dict : list (string * @Variable_ LiteralType))
    (text_args : gmap string (option string)) :
  NoDup variable_dict.*1 ->
  match construct_literal_map_from_variable_map get_sdk_type from_string
          variable_dict text_args with
  | Ok m =>
      (forall n, is_Some (m !! n) <->
         n ∈ variable_dict.*1 /\ exists s, text_args !! n = Some (Some s)) /\
      (forall n v s, (n, v) ∈ variable_dict -> text_args !! n = Some (Some s) ->
         exists lit, parsed_as get_sdk_type from_string (var_type v) s lit /\
           m !! n = Some lit)
  | Err e =>
      exists n v s, (n, v) ∈ variable_dict /\ text_args !! n = Some (Some s) /\
        parse_raises get_sdk_type from_string (var_type v) s e
  end.
Proof.
  intros Hnd. unfold construct_literal_map_from_variable_map.
  pose proof (variable_loop_spec variable_dict text_args ∅ Hnd) as Hspec.
  destruct (variable_loop _ _ variable_dict text_args ∅) as [m|e].
  - destruct Hspec as [Hout Hin]. split.
    + intros n. split.
      * intros Hsome. destruct (decide (n ∈ variable_dict.*1)) as [Hn|Hn].
        -- split; [done|].
           apply list_elem_of_fmap in Hn as ([n' v] & -> & Hnv). cbn in *.
           specialize (Hin n' v Hnv).
           destruct (supplied text_args n') as [s|] eqn:Hs.
           ++ exists s. by apply supplied_Some.
           ++ rewrite Hin, lookup_empty in Hsome. by destruct Hsome.
        -- rewrite Hout, lookup_empty in Hsome by done. by destruct Hsome.
      * intros [([n' v] & -> & Hnv)%list_elem_of_fmap [s Hs%supplied_Some]]. cbn in *.
        specialize (Hin n' v Hnv). rewrite Hs in Hin.
        destruct Hin as (lit & _ & ->). eauto.
    + intros n v s Hnv Hs%supplied_Some.
      specialize (Hin n v Hnv). by rewrite Hs in Hin.
  - destruct Hspec as (n & v & s & Hnv & Hs%supplied_Some & Hp). eauto 10.
Qed.

(** C5, as the code has it: [construct_literal_map_from_parameter_map]
    either returns a map with exactly one entry per schema parameter (the
    parsed string for a parameter supplied with a non-null value, the
    stored default for a non-required parameter that is absent or null),
    or raises, with no map returned: the missing-parameter exception
    naming a required parameter that is absent or null, or else the type
    engine's own exception for a parameter of the schema. *)
Theorem parameter_map_outcomes
    (parameters : list (string * @Parameter_ LiteralType Literal))
    (text_args : gmap string (option string)) :
  NoDup parameters.*1 ->
  match construct_literal_map_from_parameter_map get_sdk_type from_string
          parameters text_args with
  | Ok m =>
      (forall n, is_Some (m !! n) <-> n ∈ parameters.*1) /\
      size m = length parameters /\
      (forall n p, (n, p) ∈ parameters ->
         match supplied text_args n with
         | Some s =>
             exists lit, parsed_as get_sdk_type from_string (var_type (var p)) s lit /\
               m !! n = Some lit
         | None => required p = false /\ m !! n = Some (default p)
         end)
  | Err e =>
      exists n p, (n, p) ∈ parameters /\
        ((required p = true /\ supplied text_args n = None /\
          e = MissingRequiredParameter n) \/
         (exists s, supplied text_args n = Some s /\
            parse_raises get_sdk_type from_string (var_type (var p)) s e) \/
         (supplied text_args n = None /\ get_sdk_type (var_type (var p)) = Err e))
  end.
Proof.
  intros Hnd. unfold construct_literal_map_from_parameter_map.
  pose proof (parameter_loop_spec parameters text_args ∅ Hnd) as Hspec.
  destruct (parameter_loop _ _ parameters text_args ∅) as [m|e]; [|done].
  destruct Hspec as [Hout Hin].
  assert (Hdom : forall n, is_Some (m !! n) <-> n ∈ parameters.*1).
  { intros n. split.
    - intros Hsome. destruct (decide (n ∈ parameters.*1)) as [Hn|Hn]; [done|].
      rewrite Hout, lookup_empty in Hsome by done. by destruct Hsome.
    - intros ([n' p] & -> & Hnp)%list_elem_of_fmap. cbn.
      specialize (Hin n' p Hnp). destruct (supplied text_args n').
      + destruct Hin as (lit & _ & ->). eauto.
      + destruct Hin as [_ ->]. eauto. }
  split; [exact Hdom|]. split; [|exact Hin].
  assert (Hset : dom m = list_to_set parameters.*1).
  { apply set_eq. intros n. rewrite elem_of_dom, elem_of_list_to_set. apply Hdom. }
  rewrite <- size_dom, Hset, size_list_to_set by done. apply length_fmap.
Qed.

End LiteralConstructionFacts.

(** ** Literal maps on the small type engine *)

Lemma parameter_map_outcomes_witness :
  NoDup [("x", mkParameter (mkVariable TypeEngine.INTEGER "") (TypeEngine.LInteger 0) true);
         ("y", mkParameter (mkVariable TypeEngine.INTEGER "") (TypeEngine.LInteger 7) false)].*1 /\
  exists m,
    construct_literal_map_from_parameter_map
      TypeEngine.get_sdk_type_from_literal_type TypeEngine.from_string
      [("x", mkParameter (mkVariable TypeEngine.INTEGER "") (TypeEngine.LInteger 0) true);
       ("y", mkParameter (mkVariable TypeEngine.INTEGER "") (TypeEngine.LInteger 7) false)]
      {["x" := Some "12"]} = Ok m /\
    size m = 2%nat /\
    m !! "y" = Some (TypeEngine.LInteger 7).
Proof.
  assert (Hnd : NoDup
    [("x", mkParameter (mkVariable TypeEngine.INTEGER "") (TypeEngine.LInteger 0) true);
     ("y", mkParameter (mkVariable TypeEngine.INTEGER "") (TypeEngine.LInteger 7) false)].*1).
  { apply (bool_decide_unpack _). vm_compute. reflexivity. }
  split; [exact Hnd|].
  pose proof (parameter_map_outcomes
    TypeEngine.get_sdk_type_from_literal_type TypeEngine.from_string
    [("x", mkParameter (mkVariable TypeEngine.INTEGER "") (TypeEngine.LInteger 0) true);
     ("y", mkParameter (mkVariable TypeEngine.INTEGER "") (TypeEngine.LInteger 7) false)]
    {["x" := Some "12"]} Hnd) as Hthm.
  destruct (construct_literal_map_from_parameter_map _ _ _ _) as [m|e] eqn:Hrun;
    [|vm_compute in Hrun; discriminate Hrun].
  destruct Hthm as (_ & Hsize & Hvalues).
  exists m. split; [reflexivity|]. split; [exact Hsize|].
  apply (Hvalues "y"
    (mkParameter (mkVariable TypeEngine.INTEGER "") (TypeEngine.LInteger 7) false)).
  apply list_elem_of_further, list_elem_of_here.
Defined.

Example parameter_map_required_missing :
  construct_literal_map_from_parameter_map
    TypeEngine.get_sdk_type_from_literal_type TypeEngine.from_string
    [("x", mkParameter (mkVariable TypeEngine.INTEGER "") (TypeEngine.LInteger 0) true)] ∅
  = Err (Exception "Missing required parameter x").
Proof. reflexivity. Qed.

Example parameter_map_required_null :
  construct_literal_map_from_parameter_map
    TypeEngine.get_sdk_type_from_literal_type TypeEngine.from_string
    [("x", mkParameter (mkVariable TypeEngine.INTEGER "") (TypeEngine.LInteger 0) true)]
    {["x" := None]}
  = Err (MissingRequiredParameter "x").
Proof. reflexivity. Qed.

Example parameter_map_default :
  construct_literal_map_from_parameter_map
    TypeEngine.get_sdk_type_from_literal_type TypeEngine.from_string
    [("y", mkParameter (mkVariable TypeEngine.INTEGER "") (TypeEngine.LInteger 7) false)] ∅
  = Ok {["y" := TypeEngine.LInteger 7]}.
Proof. reflexivity. Qed.

(** C5, as stated, fails: a required parameter supplied with a string the
    type engine cannot parse gives neither a map nor the missing-parameter
    exception. *)
Lemma parameter_map_unparsable_value :
  let outcome :=
    construct_literal_map_from_parameter_map
      TypeEngine.get_sdk_type_from_literal_type TypeEngine.from_string
      [("x", mkParameter (mkVariable TypeEngine.INTEGER "") (TypeEngine.LInteger 0) true)]
      {["x" := Some "abc"]} in
  outcome = Err (UnparsableValue "abc" "Integer") /\
  (forall m, outcome <> Ok m) /\
  (forall n, outcome <> Err (MissingRequiredParameter n)).
Proof.
  cbv zeta.
  assert (Hrun : construct_literal_map_from_parameter_map
      TypeEngine.get_sdk_type_from_literal_type TypeEngine.from_string
      [("x", mkParameter (mkVariable TypeEngine.INTEGER "") (TypeEngine.LInteger 0) true)]
      {["x" := Some "abc"]} = Err (UnparsableValue "abc" "Integer")) by reflexivity.
  rewrite Hrun. split; [reflexivity|]. split; intros; discriminate.
Qed.

Lemma variable_map_keys_are_supplied_names_witness :
  NoDup [("a", mkVariable TypeEngine.INTEGER ""); ("b", mkVariable TypeEngine.STRING "");
         ("c", mkVariable TypeEngine.STRING "")].*1 /\
  exists m,
    construct_literal_map_from_variable_map
      TypeEngine.get_sdk_type_from_literal_type TypeEngine.from_string
      [("a", mkVariable TypeEngine.INTEGER ""); ("b", mkVariable TypeEngine.STRING "");
       ("c", mkVariable TypeEngine.STRING "")]
      {["a" := Some "-3"; "b" := None; "z" := Some "unused"]} = Ok m /\
    is_Some (m !! "a") /\ m !! "b" = None /\ m !! "c" = None /\ m !! "z" = None.
Proof.
  assert (Hnd : NoDup
    [("a", mkVariable TypeEngine.INTEGER ""); ("b", mkVariable TypeEngine.STRING "");
     ("c", mkVariable TypeEngine.STRING "")].*1).
  { apply (bool_decide_unpack _). vm_compute. reflexivity. }
  split; [exact Hnd|].
  pose proof (variable_map_keys_are_supplied_names
    TypeEngine.get_sdk_type_from_literal_type TypeEngine.from_string
    [("a", mkVariable TypeEngine.INTEGER ""); ("b", mkVariable TypeEngine.STRING "");
     ("c", mkVariable TypeEngine.STRING "")]
    {["a" := Some "-3"; "b" := None; "z" := Some "unused"]} Hnd) as Hthm.
  destruct (construct_literal_map_from_variable_map _ _ _ _) as [m|e] eqn:Hrun;
    [|vm_compute in Hrun; discriminate Hrun].
  destruct Hthm as [Hkeys _].
  exists m. split; [reflexivity|]. split.
  - apply Hkeys. split; [apply list_elem_of_here|]. exists "-3". reflexivity.
  - repeat split; apply eq_None_not_Some; intros [Hin [s Hs]]%Hkeys.
    + vm_compute in Hs; discriminate Hs.
    + vm_compute in Hs; discriminate Hs.
    + cbn in Hin.
      repeat (apply elem_of_cons in Hin as [Heq|Hin]; [discriminate Heq|]).
      by apply elem_of_nil in Hin.
Defined.

(** C7, as stated, fails: a schema name supplied with a string the type
    engine cannot parse yields no map at all. *)
Lemma variable_map_unparsable_value :
  let outcome :=
    construct_literal_map_from_variable_map
      TypeEngine.get_sdk_type_from_literal_type TypeEngine.from_string
      [("x", mkVariable TypeEngine.INTEGER "")] {["x" := Some "abc"]} in
  outcome = Err (UnparsableValue "abc" "Integer") /\
  (forall m, outcome <> Ok m).
Proof.
  cbv zeta.
  assert (Hrun : construct_literal_map_from_variable_map
      TypeEngine.get_sdk_type_from_literal_type TypeEngine.from_string
      [("x", mkVariable TypeEngine.INTEGER "")] {["x" := Some "abc"]}
      = Err (UnparsableValue "abc" "Integer")) by reflexivity.
  rewrite Hrun. split; [reflexivity|]. intros; discriminate.
Qed.

(** * Further properties of hydration *)

Lemma py_or_empty_iff (a b : string) : py_or a b = "" <-> a = "" /\ b = "".
Proof. destruct a, b; cbn; split; try intros [? ?]; try done. Qed.

Lemma py_or_fixed_iff (a b : string) : py_or a b = a <-> (a = "" -> b = "").
Proof.
  destruct a; cbn; split; try done.
  - intros H; by rewrite H.
Qed.

Lemma py_or_assoc (a b c : string) : py_or (py_or a b) c = py_or a (py_or b c).
Proof. destruct a; [|done]. done. Qed.

(** X1: A coordinate of the hydrated identifier is empty only when both the
    identifier and the context leave it empty. *)
Theorem hydrate_identifier_empty_iff (ctx : Context) (identifier : Identifier) :
  let hydrated := _hydrate_identifier ctx identifier in
  (project hydrated = "" <-> project identifier = "" /\ ctx_project ctx = "") /\
  (domain hydrated = "" <-> domain identifier = "" /\ ctx_domain ctx = "") /\
  (version hydrated = "" <-> version identifier = "" /\ ctx_version ctx = "").
Proof.
  destruct identifier as [k p d n v]; cbn. split; [|split]; apply py_or_empty_iff.
Qed.

(** X2: Hydration leaves an identifier as it is exactly when the context has
    nothing to offer for the coordinates the identifier lacks. *)
Theorem hydrate_identifier_fixed_iff (ctx : Context) (identifier : Identifier) :
  _hydrate_identifier ctx identifier = identifier <->
  (project identifier = "" -> ctx_project ctx = "") /\
  (domain identifier = "" -> ctx_domain ctx = "") /\
  (version identifier = "" -> ctx_version ctx = "").
Proof.
  destruct identifier as [k p d n v]; unfold _hydrate_identifier; cbn.
  rewrite <- !py_or_fixed_iff. split.
  - intros Heq. injection Heq as Hp Hd Hv. done.
  - intros (Hp & Hd & Hv). by rewrite Hp, Hd, Hv.
Qed.

(** X3: Hydrating with one context and then with another is hydrating once
    with the first context completed by the second. *)
Theorem hydrate_identifier_compose (first second : Context) (identifier : Identifier) :
  _hydrate_identifier second (_hydrate_identifier first identifier)
  = _hydrate_identifier (context_or first second) identifier.
Proof.
  destruct identifier as [k p d n v]; unfold _hydrate_identifier, context_or; cbn.
  by rewrite !py_or_assoc.
Qed.

Lemma hydrate_identifier_qualified (ctx : Context) (identifier : Identifier) :
  complete ctx -> qualified (_hydrate_identifier ctx identifier).
Proof.
  intros (Hp & Hd & Hv). destruct identifier as [k p d n v].
  unfold qualified; cbn. rewrite !py_or_empty_iff. tauto.
Qed.

Lemma hydrate_identifier_twice (ctx : Context) (identifier : Identifier) :
  _hydrate_identifier ctx (_hydrate_identifier ctx identifier)
  = _hydrate_identifier ctx identifier.
Proof.
  destruct identifier as [k p d n v]; unfold _hydrate_identifier; cbn.
  by rewrite !py_or_idem.
Qed.

Lemma hydrate_node_idempotent (ctx : Context) (node : Node) :
  hydrate_node ctx (hydrate_node ctx node) = hydrate_node ctx node.
Proof.
  node_cases node; unfold hydrate_node;
    cbn [target reference_id task_overrides node_id node_rest];
    by rewrite ?hydrate_identifier_twice.
Qed.

Lemma hydrate_workflow_template_twice (ctx : Context) (template : WorkflowTemplate) :
  _hydrate_workflow_template ctx (_hydrate_workflow_template ctx template)
  = _hydrate_workflow_template ctx template.
Proof.
  destruct template as [id rest ns].
  unfold _hydrate_workflow_template. cbn [nodes wt_id wt_rest app].
  rewrite !refresh_nodes_map. cbn [app]. f_equal.
  rewrite map_map. apply map_ext. intros node. apply hydrate_node_idempotent.
Qed.

(** X4: Hydrating a template a second time with the same context changes
    nothing. *)
Theorem hydrate_workflow_template_idempotent (ctx : Context) (template : WorkflowTemplate) :
  _hydrate_workflow_template ctx (_hydrate_workflow_template ctx template)
  = _hydrate_workflow_template ctx template.
Proof. apply hydrate_workflow_template_twice. Qed.

(** X5: With a context that has all three coordinates, the reference
    identifier that a node of the hydrated template holds itself (the
    [reference_id] of a task node, the [launchplan_ref] or
    [sub_workflow_ref] of a workflow node) is fully qualified.  A node
    that holds no such reference (a branch node, for one) is a node of the
    input as it was: whatever references it nests are left as they are,
    qualified or not. *)
Theorem hydrate_workflow_template_qualifies
    (ctx : Context) (template : WorkflowTemplate) (node : Node) :
  complete ctx ->
  node ∈ nodes (_hydrate_workflow_template ctx template) ->
  (forall id, node_ref node = Some id -> qualified id) /\
  (node_ref node = None -> node ∈ nodes template).
Proof.
  intros Hctx Hin. rewrite hydrate_workflow_template_nodes in Hin.
  apply list_elem_of_fmap in Hin as (node0 & -> & Hin0). split.
  - intros id Href. node_cases node0; cbn in Href; try discriminate;
      injection Href as <-; by apply hydrate_identifier_qualified.
  - intros Hnone. node_cases node0; cbn in Hnone; try discriminate; exact Hin0.
Qed.

Lemma hydrate_workflow_template_qualifies_witness :
  complete (mkContext "p" "d" "v") /\
  mkNode "n0" "" (task_node (mkTaskNode (mkIdentifier TASK "p" "dev" "t" "v") ""))
    ∈ nodes (_hydrate_workflow_template (mkContext "p" "d" "v")
        (mkWorkflowTemplate (mkIdentifier WORKFLOW "" "" "wf" "") ""
           [mkNode "n0" "" (task_node (mkTaskNode (mkIdentifier TASK "" "dev" "t" "") ""))])) /\
  qualified (mkIdentifier TASK "p" "dev" "t" "v").
Proof.
  assert (Hctx : complete (mkContext "p" "d" "v")) by (repeat split; discriminate).
  assert (Hin : mkNode "n0" "" (task_node (mkTaskNode (mkIdentifier TASK "p" "dev" "t" "v") ""))
    ∈ nodes (_hydrate_workflow_template (mkContext "p" "d" "v")
        (mkWorkflowTemplate (mkIdentifier WORKFLOW "" "" "wf" "") ""
           [mkNode "n0" "" (task_node (mkTaskNode (mkIdentifier TASK "" "dev" "t" "") ""))])))
    by apply list_elem_of_here.
  split; [exact Hctx|]. split; [exact Hin|].
  exact (proj1 (hydrate_workflow_template_qualifies _ _ _ Hctx Hin) _ eq_refl).
Defined.

(** A branch node goes through as it came, whatever it nests. *)
Example hydrate_workflow_template_branch_node :
  nodes (_hydrate_workflow_template (mkContext "p" "d" "v")
    (mkWorkflowTemplate (mkIdentifier WORKFLOW "" "" "wf" "") ""
       [mkNode "n0" "" (other_node "branch_node: then_node: task_node: reference_id: name=t")]))
  = [mkNode "n0" "" (other_node "branch_node: then_node: task_node: reference_id: name=t")].
Proof. reflexivity. Qed.

(** * Further properties of registration parameter resolution *)

(** X6: The call returns exactly when the entity is of the message type the
    dispatch expects for the resource type, and then returns the hydrated
    identifier; otherwise it raises an attribute error. *)
Theorem hydrate_registration_returns_iff
    (identifier : Identifier) (ctx : Context) (entity : Entity) :
  match hydrate_registration_parameters identifier ctx entity with
  | Returned identifier' _ =>
      identifier' = _hydrate_identifier ctx identifier /\
      dispatch_fits (resource_type identifier) entity
  | Raised e _ =>
      (exists attr, e = AttributeError attr) /\
      ~ dispatch_fits (resource_type identifier) entity
  end.
Proof.
  destruct (Z.eq_dec (resource_type identifier) LAUNCH_PLAN) as [Hlp|Hlp].
  { rewrite hydrate_registration_launch_plan by done.
    destruct entity; cbn; rewrite Hlp; split; eauto; intros H; by apply H. }
  destruct (Z.eq_dec (resource_type identifier) TASK) as [Htask|Htask].
  { rewrite hydrate_registration_task by done.
    destruct entity; cbn; rewrite Htask; split; eauto; done. }
  rewrite hydrate_registration_fall_through by done.
  destruct entity; cbn; split; eauto.
Qed.

(** X7: Resolving again, with the identifier and the entity a first call
    returned, returns them as they are. *)
Theorem hydrate_registration_idempotent
    (identifier identifier' : Identifier) (ctx : Context) (entity entity' : Entity) :
  hydrate_registration_parameters identifier ctx entity = Returned identifier' entity' ->
  hydrate_registration_parameters identifier' ctx entity' = Returned identifier' entity'.
Proof.
  destruct (Z.eq_dec (resource_type identifier) LAUNCH_PLAN) as [Hlp|Hlp].
  { rewrite hydrate_registration_launch_plan by done.
    destruct entity as [w r|t|t subs]; intros Heq; try discriminate.
    injection Heq as <- <-.
    rewrite hydrate_registration_launch_plan by done.
    by rewrite !hydrate_identifier_twice. }
  destruct (Z.eq_dec (resource_type identifier) TASK) as [Htask|Htask].
  { rewrite hydrate_registration_task by done.
    destruct entity as [w r|t|t subs]; cbn; intros Heq; try discriminate;
      injection Heq as <- <-;
      rewrite hydrate_registration_task by done;
      by rewrite !hydrate_identifier_twice. }
  rewrite hydrate_registration_fall_through by done.
  destruct entity as [w r|t|t subs]; cbn; intros Heq; try discriminate.
  injection Heq as <- <-.
  rewrite hydrate_registration_fall_through by done.
  rewrite hydrate_identifier_twice. cbn. do 2 f_equal.
  rewrite map_map. apply map_ext. intros sub. apply hydrate_workflow_template_twice.
Qed.

Lemma hydrate_registration_idempotent_witness :
  hydrate_registration_parameters
    (mkIdentifier WORKFLOW "" "" "wf" "") (mkContext "p" "d" "v")
    (WorkflowSpec (mkWorkflowTemplate (mkIdentifier WORKFLOW "" "" "" "") "" [])
       [mkWorkflowTemplate (mkIdentifier WORKFLOW "" "" "sub" "") ""
          [mkNode "n0" "" (workflow_node (sub_workflow_ref (mkIdentifier WORKFLOW "" "" "s" "")))]])
  = Returned (mkIdentifier WORKFLOW "p" "d" "wf" "v")
      (WorkflowSpec (mkWorkflowTemplate (mkIdentifier WORKFLOW "p" "d" "wf" "v") "" [])
         [mkWorkflowTemplate (mkIdentifier WORKFLOW "" "" "sub" "") ""
            [mkNode "n0" "" (workflow_node
               (sub_workflow_ref (mkIdentifier WORKFLOW "p" "d" "s" "v")))]]) /\
  hydrate_registration_parameters
    (mkIdentifier WORKFLOW "p" "d" "wf" "v") (mkContext "p" "d" "v")
    (WorkflowSpec (mkWorkflowTemplate (mkIdentifier WORKFLOW "p" "d" "wf" "v") "" [])
       [mkWorkflowTemplate (mkIdentifier WORKFLOW "" "" "sub" "") ""
          [mkNode "n0" "" (workflow_node
             (sub_workflow_ref (mkIdentifier WORKFLOW "p" "d" "s" "v")))]])
  = Returned (mkIdentifier WORKFLOW "p" "d" "wf" "v")
      (WorkflowSpec (mkWorkflowTemplate (mkIdentifier WORKFLOW "p" "d" "wf" "v") "" [])
         [mkWorkflowTemplate (mkIdentifier WORKFLOW "" "" "sub" "") ""
            [mkNode "n0" "" (workflow_node
               (sub_workflow_ref (mkIdentifier WORKFLOW "p" "d" "s" "v")))]]).
Proof.
  split; [reflexivity|].
  exact (hydrate_registration_idempotent
           (mkIdentifier WORKFLOW "" "" "wf" "") _ (mkContext "p" "d" "v")
           (WorkflowSpec (mkWorkflowTemplate (mkIdentifier WORKFLOW "" "" "" "") "" [])
              [mkWorkflowTemplate (mkIdentifier WORKFLOW "" "" "sub" "") ""
                 [mkNode "n0" "" (workflow_node
                    (sub_workflow_ref (mkIdentifier WORKFLOW "" "" "s" "")))]])
           _ eq_refl).
Defined.


(** * Further properties of argument splitting *)

Lemma foldl_insert_union (pairs : list (string * string)) (d : gmap string string) :
  foldl (fun d p => <[p.1 := p.2]> d) d pairs
  = foldl (fun d p => <[p.1 := p.2]> d) ∅ pairs ∪ d.
Proof.
  induction pairs as [|[k v] pairs IH] using rev_ind.
  - cbn. by rewrite (left_id_L ∅ (∪)).
  - rewrite !foldl_app. cbn [foldl fst snd]. rewrite IH. apply insert_union_l.
Qed.

Lemma foldl_insert_list_to_map (pairs : list (string * string)) :
  foldl (fun d p => <[p.1 := p.2]> d) (∅ : gmap string string) pairs
  = list_to_map (reverse pairs).
Proof.
  induction pairs as [|[k v] pairs IH] using rev_ind; [done|].
  rewrite foldl_app, reverse_app. cbn. by rewrite IH.
Qed.

Lemma parse_args_absent (input_arguments : list string) :
  Exists (fun a => occurs "=" a = false) input_arguments ->
  parse_args_into_dict input_arguments = Err IndexError.
Proof.
  intros Hex. unfold parse_args_into_dict.
  destruct (dict_of_splits_outcome input_arguments ∅) as [[Hall _]|[_ Hd]]; [|done].
  apply Exists_exists in Hex as (a & Hin & Ha).
  rewrite Forall_forall in Hall. rewrite (Hall a Hin) in Ha. discriminate.
Qed.

(** X9: Parsing two argument lists one after the other: the mapping of the
    second list laid over the mapping of the first, and an error as soon
    as either list has an entry without "=". *)
Theorem parse_args_app (first second : list string) :
  parse_args_into_dict (first ++ second)
  = match parse_args_into_dict first, parse_args_into_dict second with
    | Ok d1, Ok d2 => Ok (d2 ∪ d1)
    | _, _ => Err IndexError
    end.
Proof.
  destruct (dict_of_splits_outcome first ∅) as [[Hall1 _]|[Hex1 _]].
  2:{ rewrite (parse_args_absent first Hex1).
      apply parse_args_absent, Exists_app. by left. }
  destruct (dict_of_splits_outcome second ∅) as [[Hall2 _]|[Hex2 _]].
  2:{ rewrite (parse_args_absent second Hex2).
      rewrite (parse_args_absent (first ++ second)) by (apply Exists_app; by right).
      by destruct (parse_args_into_dict first). }
  rewrite Forall_forall in Hall1, Hall2.
  destruct (key_value_pairs first) as (p1 & -> & Hp1);
    [exact Hall1|].
  destruct (key_value_pairs second) as (p2 & -> & Hp2);
    [exact Hall2|].
  unfold parse_args_into_dict. rewrite <- map_app.
  rewrite !dict_of_splits_pairs by (done || by apply Forall_app).
  rewrite foldl_app. by rewrite (foldl_insert_union p2).
Qed.

(** X10: Writing a dictionary out as [key=value] strings, in any order, and
    parsing them gives the dictionary back, provided no key has an "=". *)
Theorem parse_args_round_trip (d : gmap string string) (pairs : list (string * string)) :
  pairs ≡ₚ map_to_list d ->
  (forall k v, d !! k = Some v -> occurs "=" k = false) ->
  parse_args_into_dict (map (fun p => key_value p.1 p.2) pairs) = Ok d.
Proof.
  intros Hperm Hkeys. unfold parse_args_into_dict.
  rewrite dict_of_splits_pairs.
  - rewrite foldl_insert_list_to_map. f_equal.
    rewrite <- (list_to_map_to_list d). apply list_to_map_proper.
    + rewrite reverse_Permutation, Hperm. apply NoDup_fst_map_to_list.
    + by rewrite reverse_Permutation.
  - apply Forall_forall. intros [k v] Hin. cbn. apply (Hkeys k v).
    apply elem_of_map_to_list. by rewrite <- Hperm.
Qed.

Lemma parse_args_round_trip_witness :
  [("b", "x=y"); ("a", "")] ≡ₚ map_to_list ({["a" := ""; "b" := "x=y"]} : gmap string string) /\
  parse_args_into_dict ["b=x=y"; "a="] = Ok {["a" := ""; "b" := "x=y"]}.
Proof.
  assert (Hperm : [("b", "x=y"); ("a", "")]
                  ≡ₚ map_to_list ({["a" := ""; "b" := "x=y"]} : gmap string string)).
  { rewrite map_to_list_insert by done. rewrite map_to_list_singleton. apply perm_swap. }
  split; [exact Hperm|].
  refine (parse_args_round_trip {["a" := ""; "b" := "x=y"]} [("b", "x=y"); ("a", "")] Hperm _).
  intros k v Hkv.
  destruct (decide (k = "a")) as [->|Ha]; [reflexivity|].
  rewrite lookup_insert_ne in Hkv by done.
  destruct (decide (k = "b")) as [->|Hb]; [reflexivity|].
  rewrite lookup_singleton_ne in Hkv by done. discriminate Hkv.
Defined.

(** * Further properties of literal maps *)

Section LiteralConstructionMore.

Context {LiteralType SdkType Literal : Type}.
Variable get_sdk_type : LiteralType -> result SdkType.
Variable from_string : SdkType -> string -> result Literal.

Lemma variable_loop_agree (items : list (string * @Variable_ LiteralType))
    (text_args text_args' : gmap string (option string)) (inputs : gmap string Literal) :
  (forall n, n ∈ items.*1 -> supplied text_args n = supplied text_args' n) ->
  variable_loop get_sdk_type from_string items text_args inputs
  = variable_loop get_sdk_type from_string items text_args' inputs.
Proof.
  revert inputs; induction items as [|[n0 v0] items IH]; intros inputs Hagree; [done|].
  cbn [variable_loop]. rewrite <- (Hagree n0) by apply list_elem_of_here.
  assert (Hrest : forall n, n ∈ items.*1 -> supplied text_args n = supplied text_args' n)
    by (intros n Hn; apply Hagree; by apply list_elem_of_further).
  destruct (supplied text_args n0); [|by apply IH].
  destruct (get_sdk_type (var_type v0)); [|done]. cbn.
  destruct (from_string _ _); [|done]. cbn. by apply IH.
Qed.

Lemma parameter_loop_agree (items : list (string * @Parameter_ LiteralType Literal))
    (text_args text_args' : gmap string (option string)) (inputs : gmap string Literal) :
  (forall n, n ∈ items.*1 -> supplied text_args n = supplied text_args' n) ->
  parameter_loop get_sdk_type from_string items text_args inputs
  = parameter_loop get_sdk_type from_string items text_args' inputs.
Proof.
  revert inputs; induction items as [|[n0 p0] items IH]; intros inputs Hagree; [done|].
  cbn [parameter_loop]. rewrite <- (Hagree n0) by apply list_elem_of_here.
  assert (Hrest : forall n, n ∈ items.*1 -> supplied text_args n = supplied text_args' n)
    by (intros n Hn; apply Hagree; by apply list_elem_of_further).
  destruct (get_sdk_type (var_type (var p0))); [|done]. cbn.
  destruct (required p0), (supplied text_args n0); try done;
    try (destruct (from_string _ _); [|done]; cbn); by apply IH.
Qed.

(** X11: Both constructions look at the argument map only under the names of
    the schema, and only at whether a non-null string is there: argument
    maps that agree on that give the same result, map or exception. *)
Theorem literal_maps_ignore_other_arguments
    (variable_dict : list (string * @Variable_ LiteralType))
    (parameters : list (string * @Parameter_ LiteralType Literal))
    (text_args text_args' : gmap string (option string)) :
  (forall n, n ∈ variable_dict.*1 \/ n ∈ parameters.*1 ->
     supplied text_args n = supplied text_args' n) ->
  construct_literal_map_from_variable_map get_sdk_type from_string variable_dict text_args
  = construct_literal_map_from_variable_map get_sdk_type from_string variable_dict text_args' /\
  construct_literal_map_from_parameter_map get_sdk_type from_string parameters text_args
  = construct_literal_map_from_parameter_map get_sdk_type from_string parameters text_args'.
Proof.
  intros Hagree. split.
  - apply variable_loop_agree. intros n Hn. apply Hagree. by left.
  - apply parameter_loop_agree. intros n Hn. apply Hagree. by right.
Qed.

Lemma parameter_loop_all_supplied (items : list (string * @Parameter_ LiteralType Literal))
    (text_args : gmap string (option string)) (inputs : gmap string Literal) :
  (forall n, n ∈ items.*1 -> is_Some (supplied text_args n)) ->
  parameter_loop get_sdk_type from_string items text_args inputs
  = variable_loop get_sdk_type from_string (map (fun np => (np.1, var np.2)) items)
      text_args inputs.
Proof.
  revert inputs; induction items as [|[n0 p0] items IH]; intros inputs Hall; [done|].
  cbn [parameter_loop variable_loop map fst snd].
  destruct (Hall n0) as [s Hs]; [apply list_elem_of_here|]. rewrite Hs.
  assert (Hrest : forall n, n ∈ items.*1 -> is_Some (supplied text_args n))
    by (intros n Hn; apply Hall; by apply list_elem_of_further).
  destruct (get_sdk_type (var_type (var p0))); [|done]. cbn.
  destruct (required p0); (destruct (from_string _ _); [|done]); cbn; by apply IH.
Qed.

(** X12: When every parameter of the schema is supplied, the parameter
    construction does what the variable construction does on the
    parameters' variables, whether they are required or not. *)
Theorem parameter_map_all_supplied
    (parameters : list (string * @Parameter_ LiteralType Literal))
    (text_args : gmap string (option string)) :
  (forall n, n ∈ parameters.*1 -> exists s, text_args !! n = Some (Some s)) ->
  construct_literal_map_from_parameter_map get_sdk_type from_string parameters text_args
  = construct_literal_map_from_variable_map get_sdk_type from_string
      (map (fun np => (np.1, var np.2)) parameters) text_args.
Proof.
  intros Hall. apply parameter_loop_all_supplied.
  intros n [s Hs]%Hall. exists s. unfold supplied. by rewrite Hs.
Qed.

Lemma variable_loop_ok_iff (items : list (string * @Variable_ LiteralType))
    (text_args : gmap string (option string)) (inputs : gmap string Literal) :
  (exists m, variable_loop get_sdk_type from_string items text_args inputs = Ok m) <->
  (forall n v s, (n, v) ∈ items -> supplied text_args n = Some s ->
     exists lit, parsed_as get_sdk_type from_string (var_type v) s lit).
Proof.
  revert inputs; induction items as [|[n0 v0] items IH]; intros inputs.
  - cbn. split; [|by eauto]. intros _ n v s Hin. by apply elem_of_nil in Hin.
  - cbn [variable_loop]. destruct (supplied text_args n0) as [s0|] eqn:Hs0.
    + destruct (get_sdk_type (var_type v0)) as [sdk|e] eqn:Hsdk; cbn.
      2:{ split; [by intros [m ?]|]. intros Hall.
          destruct (Hall n0 v0 s0) as (lit & sdk & Hsdk' & _);
            [apply list_elem_of_here|done|congruence]. }
      destruct (from_string sdk s0) as [lit|e] eqn:Hlit; cbn.
      2:{ split; [by intros [m ?]|]. intros Hall.
          destruct (Hall n0 v0 s0) as (lit & sdk' & Hsdk' & Hlit');
            [apply list_elem_of_here|done|congruence]. }
      rewrite IH. split.
      * intros Hall n v s [Heq|Hin]%elem_of_cons Hs; [|by eauto].
        injection Heq as -> ->. rewrite Hs0 in Hs. injection Hs as <-.
        exists lit, sdk. done.
      * intros Hall n v s Hin. apply Hall. by apply list_elem_of_further.
    + rewrite IH. split.
      * intros Hall n v s [Heq|Hin]%elem_of_cons Hs; [|by eauto].
        injection Heq as -> ->. congruence.
      * intros Hall n v s Hin. apply Hall. by apply list_elem_of_further.
Qed.

(** X13: The variable construction returns a map exactly when the type engine
    parses every string supplied under a name of the schema. *)
Theorem variable_map_succeeds_iff
    (variable_dict : list (string * @Variable_ LiteralType))
    (text_args : gmap string (option string)) :
  (exists m, construct_literal_map_from_variable_map get_sdk_type from_string
               variable_dict text_args = Ok m) <->
  (forall n v s, (n, v) ∈ variable_dict -> text_args !! n = Some (Some s) ->
     exists lit, parsed_as get_sdk_type from_string (var_type v) s lit).
Proof.
  unfold construct_literal_map_from_variable_map. rewrite variable_loop_ok_iff.
  split; intros Hall n v s Hin Hs; apply (Hall n v s Hin); by apply supplied_Some.
Qed.

Lemma parameter_loop_ok_iff (items : list (string * @Parameter_ LiteralType Literal))
    (text_args : gmap string (option string)) (inputs : gmap string Literal) :
  (exists m, parameter_loop get_sdk_type from_string items text_args inputs = Ok m) <->
  (forall n p, (n, p) ∈ items ->
     exists sdk_type, get_sdk_type (var_type (var p)) = Ok sdk_type /\
       match supplied text_args n with
       | Some s => exists lit, from_string sdk_type s = Ok lit
       | None => required p = false
       end).
Proof.
  revert inputs; induction items as [|[n0 p0] items IH]; intros inputs.
  - cbn. split; [|by eauto]. intros _ n p Hin. by apply elem_of_nil in Hin.
  - cbn [parameter_loop].
    assert (Hstep : forall inputs' sdk,
      get_sdk_type (var_type (var p0)) = Ok sdk ->
      match supplied text_args n0 with
      | Some s => exists lit, from_string sdk s = Ok lit
      | None => required p0 = false
      end ->
      ((exists m, parameter_loop get_sdk_type from_string items text_args inputs' = Ok m) <->
       (forall n p, (n, p) ∈ (n0, p0) :: items ->
          exists sdk_type, get_sdk_type (var_type (var p)) = Ok sdk_type /\
            match supplied text_args n with
            | Some s => exists lit, from_string sdk_type s = Ok lit
            | None => required p = false
            end))).
    { intros inputs' sdk Hsdk Hhead. rewrite IH. split.
      - intros Hall n p [Heq|Hin]%elem_of_cons; [|by eauto].
        injection Heq as -> ->. by exists sdk.
      - intros Hall n p Hin. apply Hall. by apply list_elem_of_further. }
    destruct (get_sdk_type (var_type (var p0))) as [sdk|e] eqn:Hsdk; cbn.
    2:{ split; [by intros [m ?]|]. intros Hall.
        destruct (Hall n0 p0) as (sdk & Hsdk' & _); [apply list_elem_of_here|congruence]. }
    destruct (supplied text_args n0) as [s0|] eqn:Hs0.
    + assert (Hsame :
        (if required p0 then
           from_string sdk s0 ≫= (fun lit =>
             parameter_loop get_sdk_type from_string items text_args (<[n0:=lit]> inputs))
         else
           from_string sdk s0 ≫= (fun lit =>
             parameter_loop get_sdk_type from_string items text_args (<[n0:=lit]> inputs)))
        = from_string sdk s0 ≫= (fun lit =>
             parameter_loop get_sdk_type from_string items text_args (<[n0:=lit]> inputs)))
        by (by destruct (required p0)).
      rewrite Hsame. clear Hsame.
      destruct (from_string sdk s0) as [lit|e] eqn:Hlit; cbn.
      * apply (Hstep _ sdk eq_refl). by exists lit.
      * split; [by intros [m ?]|]. intros Hall.
        destruct (Hall n0 p0) as (sdk' & Hsdk' & Hhead); [apply list_elem_of_here|].
        rewrite Hs0 in Hhead. destruct Hhead as [lit Hlit'].
        rewrite Hsdk in Hsdk'. injection Hsdk' as <-. congruence.
    + destruct (required p0) eqn:Hreq.
      * split; [by intros [m ?]|]. intros Hall.
        destruct (Hall n0 p0) as (sdk' & _ & Hhead); [apply list_elem_of_here|].
        rewrite Hs0 in Hhead. congruence.
      * by apply (Hstep _ sdk eq_refl).
Qed.

(** X14: The parameter construction returns a map exactly when the type of
    every parameter resolves, every supplied string parses, and every
    parameter that is not supplied is not required. *)
Theorem parameter_map_succeeds_iff
    (parameters : list (string * @Parameter_ LiteralType Literal))
    (text_args : gmap string (option string)) :
  (exists m, construct_literal_map_from_parameter_map get_sdk_type from_string
               parameters text_args = Ok m) <->
  (forall n p, (n, p) ∈ parameters ->
     exists sdk_type, get_sdk_type (var_type (var p)) = Ok sdk_type /\
       match supplied text_args n with
       | Some s => exists lit, from_string sdk_type s = Ok lit
       | None => required p = false
       end).
Proof. apply parameter_loop_ok_iff. Qed.

End LiteralConstructionMore.

Lemma literal_maps_ignore_other_arguments_witness :
  construct_literal_map_from_variable_map
    TypeEngine.get_sdk_type_from_literal_type TypeEngine.from_string
    [("a", mkVariable TypeEngine.INTEGER "")] {["a" := Some "1"; "b" := None]}
  = construct_literal_map_from_variable_map
      TypeEngine.get_sdk_type_from_literal_type TypeEngine.from_string
      [("a", mkVariable TypeEngine.INTEGER "")] {["a" := Some "1"; "zz" := Some "9"]} /\
  construct_literal_map_from_parameter_map
    TypeEngine.get_sdk_type_from_literal_type TypeEngine.from_string
    [("b", mkParameter (mkVariable TypeEngine.STRING "") (TypeEngine.LString "dflt") false)]
    {["a" := Some "1"; "b" := None]}
  = construct_literal_map_from_parameter_map
      TypeEngine.get_sdk_type_from_literal_type TypeEngine.from_string
      [("b", mkParameter (mkVariable TypeEngine.STRING "") (TypeEngine.LString "dflt") false)]
      {["a" := Some "1"; "zz" := Some "9"]}.
Proof.
  apply (literal_maps_ignore_other_arguments
           TypeEngine.get_sdk_type_from_literal_type TypeEngine.from_string).
  intros n [Hn|Hn]; cbn in Hn; apply list_elem_of_singleton in Hn; subst n; reflexivity.
Defined.

Lemma parameter_map_all_supplied_witness :
  construct_literal_map_from_parameter_map
    TypeEngine.get_sdk_type_from_literal_type TypeEngine.from_string
    [("x", mkParameter (mkVariable TypeEngine.INTEGER "") (TypeEngine.LInteger 0) true);
     ("y", mkParameter (mkVariable TypeEngine.STRING "") (TypeEngine.LString "d") false)]
    {["x" := Some "4"; "y" := Some "why"]}
  = construct_literal_map_from_variable_map
      TypeEngine.get_sdk_type_from_literal_type TypeEngine.from_string
      [("x", mkVariable TypeEngine.INTEGER ""); ("y", mkVariable TypeEngine.STRING "")]
      {["x" := Some "4"; "y" := Some "why"]}.
Proof.
  apply (parameter_map_all_supplied
           TypeEngine.get_sdk_type_from_literal_type TypeEngine.from_string
           [("x", mkParameter (mkVariable TypeEngine.INTEGER "") (TypeEngine.LInteger 0) true);
            ("y", mkParameter (mkVariable TypeEngine.STRING "") (TypeEngine.LString "d") false)]).
  intros n Hn. cbn in Hn.
  apply elem_of_cons in Hn as [->|Hn]; [by exists "4"|].
  apply list_elem_of_singleton in Hn as ->. by exists "why".
Defined.

(** * The Azure blob persistence plugin *)

Module AzureCliFacts.
Import AzureCli.

(** ** Paths *)

Lemma prefix_drop (p s : string) :
  String.prefix p s = true -> s = p +:+ str_drop (String.length p) s.
Proof.
  revert s; induction p as [|c p IH]; intros s; [done|].
  destruct s as [|c' s]; cbn; [done|].
  destruct (ascii_dec c c') as [->|]; [|done].
  intros Hp. apply IH in Hp.
  change (String c' s = String c' (p +:+ str_drop (String.length p) s)).
  by rewrite <- Hp.
Qed.

Lemma prefix_app (p s : string) : String.prefix p (p +:+ s) = true.
Proof.
  induction p as [|c p IH]; [by destruct s|].
  change (String c p +:+ s) with (String c (p +:+ s)). cbn.
  by destruct (ascii_dec c c).
Qed.

Lemma str_drop_app (p s : string) : str_drop (String.length p) (p +:+ s) = s.
Proof. induction p as [|c p IH]; [by destruct s|]. exact IH. Qed.

Lemma str_index_absent (c : ascii) (s : string) :
  str_index c s = None <-> occurs c s = false.
Proof.
  induction s as [|c' s IH]; cbn; [done|].
  destruct (Ascii.eqb c' c); cbn; [done|].
  rewrite <- IH. by destruct (str_index c s).
Qed.

Lemma str_index_app (c : ascii) (k v : string) :
  occurs c k = false ->
  str_index c (k +:+ String c v) = Some (String.length k) /\
  str_take (String.length k) (k +:+ String c v) = k /\
  str_drop (String.length k + 1) (k +:+ String c v) = v.
Proof.
  induction k as [|c' k IH].
  - intros _. change ("" +:+ String c v) with (String c v). cbn.
    rewrite Ascii.eqb_refl. done.
  - cbn [occurs]. intros [Hc Hk]%orb_false_iff.
    change (String c' k +:+ String c v) with (String c' (k +:+ String c v)).
    cbn. rewrite Hc. destruct (IH Hk) as (-> & -> & ->). done.
Qed.

Lemma str_index_split (c : ascii) (s : string) (i : nat) :
  str_index c s = Some i ->
  s = str_take i s +:+ String c (str_drop (i + 1) s) /\ occurs c (str_take i s) = false.
Proof.
  revert i; induction s as [|c' s IH]; intros i; cbn; [done|].
  destruct (Ascii.eqb_spec c' c) as [->|Hne].
  - intros [= <-]. done.
  - destruct (str_index c s) as [j|]; cbn; [|done]. intros [= <-].
    destruct (IH j eq_refl) as [Hs Hocc]. cbn.
    change (String c' (str_take j s) +:+ String c (str_drop (j + 1) s))
      with (String c' (str_take j s +:+ String c (str_drop (j + 1) s))).
    rewrite <- Hs.
    split; [done|]. rewrite Hocc. by destruct (Ascii.eqb_spec c' c).
Qed.

Lemma check_and_split (container blob_path : string) :
  occurs "/" container = false ->
  _check_uri (PROTOCOL +:+ container +:+ "/" +:+ blob_path) = Return tt /\
  _split_abfs_path (PROTOCOL +:+ container +:+ "/" +:+ blob_path)
  = Return (container, blob_path).
Proof.
  intros Hc. split; [unfold _check_uri; by rewrite prefix_app|].
  unfold _split_abfs_path. rewrite str_drop_app.
  change ("/" +:+ blob_path) with (String "/" blob_path).
  destruct (str_index_app "/" container blob_path Hc) as (-> & -> & ->). done.
Qed.

(** X15: Splitting [abfs://container/blob] gives back the container and the
    blob path, whatever further "/" the blob path has. *)
Theorem split_abfs_path_round_trip (container blob_path : string) :
  occurs "/" container = false ->
  _check_uri (PROTOCOL +:+ container +:+ "/" +:+ blob_path) = Return tt /\
  _split_abfs_path (PROTOCOL +:+ container +:+ "/" +:+ blob_path)
  = Return (container, blob_path).
Proof. apply check_and_split. Qed.

Lemma split_abfs_path_round_trip_witness :
  occurs "/" "az-blob-container" = false /\
  _split_abfs_path "abfs://az-blob-container/dir/k1" = Return ("az-blob-container", "dir/k1").
Proof.
  split; [reflexivity|].
  exact (proj2 (split_abfs_path_round_trip "az-blob-container" "dir/k1" eq_refl)).
Defined.

(** X16: On a URI that [_check_uri] accepts, [_split_abfs_path] either returns
    the container and blob path that the URI is made of, or raises
    [ValueError] because nothing after the protocol has a "/". *)
Theorem split_abfs_path_inverse (uri : string) :
  _check_uri uri = Return tt ->
  match _split_abfs_path uri with
  | Return (container, blob_path) =>
      uri = PROTOCOL +:+ container +:+ "/" +:+ blob_path /\ occurs "/" container = false
  | Raise ex =>
      ex = ValueError "substring not found" /\
      exists rest, uri = PROTOCOL +:+ rest /\ occurs "/" rest = false
  end.
Proof.
  unfold _check_uri, _split_abfs_path.
  destruct (String.prefix PROTOCOL uri) eqn:Hp; [intros _|done].
  apply prefix_drop in Hp. set (rest := str_drop (String.length PROTOCOL) uri) in *.
  destruct (str_index "/" rest) as [i|] eqn:Hi.
  - destruct (str_index_split _ _ _ Hi) as [Hrest Hocc]. split; [|done].
    rewrite Hp at 1. f_equal. exact Hrest.
  - split; [done|]. exists rest. split; [done|]. by apply str_index_absent.
Qed.

Lemma split_abfs_path_inverse_witness :
  _check_uri "abfs://container" = Return tt /\
  _split_abfs_path "abfs://container" = Raise (ValueError "substring not found").
Proof.
  split; [reflexivity|].
  pose proof (split_abfs_path_inverse "abfs://container" eq_refl) as H.
  destruct (_split_abfs_path "abfs://container") as [[c b]|ex] eqn:Hs.
  - vm_compute in Hs. discriminate Hs.
  - destruct H as [-> _]. reflexivity.
Defined.

(** X17: A path built with the protocol and a prefix that has no "/" is
    accepted by [_check_uri] and splits into the prefix as container and
    the joined segments as blob path. *)
Theorem construct_path_splits (self : AzurePersistence) (bucket : string)
    (paths : list string) :
  default_prefix self = Some bucket ->
  occurs "/" bucket = false ->
  paths <> [] ->
  exists path,
    construct_path self true true paths = Return path /\
    _check_uri path = Return tt /\
    _split_abfs_path path = Return (bucket, String.concat "/" paths).
Proof.
  intros Hprefix Hbucket Hpaths. unfold construct_path. rewrite Hprefix.
  eexists; split; [reflexivity|].
  destruct paths as [|seg paths]; [done|].
  change (String.concat "/" (bucket :: seg :: paths))
    with (bucket +:+ "/" +:+ String.concat "/" (seg :: paths)).
  by apply check_and_split.
Qed.

Lemma construct_path_splits_witness :
  occurs "/" "bucket" = false /\
  exists path,
    construct_path (mkAzurePersistence (Some "bucket") (mkAzureBlobConfig None None 0 3))
      true true ["a"; "b/c"] = Return path /\
    _check_uri path = Return tt /\
    _split_abfs_path path = Return ("bucket", "a/b/c").
Proof.
  split; [reflexivity|].
  apply (construct_path_splits
           (mkAzurePersistence (Some "bucket") (mkAzureBlobConfig None None 0 3))
           "bucket" ["a"; "b/c"]); [reflexivity | reflexivity | discriminate].
Defined.

(** ** Retrying the command *)

Lemma retry_loop_exhausted (w : World) (cmd : list string) (env : gmap string string)
    (azure_cfg : AzureBlobConfig) (k : nat) :
  forall (err : nat -> exn) (fuel : nat) (retry : Z) (tr : Trace),
  time_sleep w (backoff azure_cfg) = Return tt ->
  Z.to_nat (retries azure_cfg - retry) = k ->
  (k < fuel)%nat ->
  (forall i, (i <= k)%nat -> check_call w (calls tr + i) cmd env = Raise (err i)) ->
  retry_loop w cmd env azure_cfg fuel retry tr
  = Some (Raise (err k),
          mkTrace (calls tr + k + 1) (sleeps tr ++ replicate k (backoff azure_cfg))).
Proof.
  induction k as [|k IH]; intros err fuel retry tr Hsleep Hk Hfuel Hfail;
    (destruct fuel as [|fuel]; [lia|]); cbn [retry_loop].
  - rewrite <- (Nat.add_0_r (calls tr)) at 1. rewrite (Hfail 0%nat) by lia.
    destruct (Z.gtb_spec (retry + 1) (retries azure_cfg)) as [_|Hle]; [|lia].
    by rewrite Nat.add_0_r, Nat.add_1_r, app_nil_r.
  - rewrite <- (Nat.add_0_r (calls tr)) at 1. rewrite (Hfail 0%nat) by lia.
    destruct (Z.gtb_spec (retry + 1) (retries azure_cfg)) as [Hgt|_]; [lia|].
    rewrite Hsleep.
    rewrite (IH (fun i => err (S i))); [| done | lia | lia |].
    + cbn [calls sleeps]. rewrite <- app_assoc. do 3 f_equal. lia.
    + intros i Hi. cbn [calls]. rewrite <- (Hfail (S i)) by lia. f_equal. lia.
Qed.

Lemma retry_loop_first_success (w : World) (cmd : list string) (env : gmap string string)
    (azure_cfg : AzureBlobConfig) (code : Z) (k : nat) :
  forall (fuel : nat) (retry : Z) (tr : Trace),
  time_sleep w (backoff azure_cfg) = Return tt ->
  Z.of_nat k <= retries azure_cfg - retry ->
  (k < fuel)%nat ->
  (forall i, (i < k)%nat -> exists e, check_call w (calls tr + i) cmd env = Raise e) ->
  check_call w (calls tr + k) cmd env = Return code ->
  retry_loop w cmd env azure_cfg fuel retry tr
  = Some (Return code,
          mkTrace (calls tr + k + 1) (sleeps tr ++ replicate k (backoff azure_cfg))).
Proof.
  induction k as [|k IH]; intros fuel retry tr Hsleep Hk Hfuel Hfail Hok;
    (destruct fuel as [|fuel]; [lia|]); cbn [retry_loop].
  - rewrite Nat.add_0_r in Hok. rewrite Hok.
    by rewrite Nat.add_0_r, Nat.add_1_r, app_nil_r.
  - destruct (Hfail 0%nat) as [e He]; [lia|]. rewrite Nat.add_0_r in He. rewrite He.
    destruct (Z.gtb_spec (retry + 1) (retries azure_cfg)) as [Hgt|_]; [lia|].
    rewrite Hsleep.
    rewrite IH; [| done | lia | lia | |].
    + cbn [calls sleeps]. rewrite <- app_assoc. do 3 f_equal. lia.
    + intros i Hi. cbn [calls]. destruct (Hfail (S i)) as [e' He']; [lia|].
      exists e'. rewrite <- He'. f_equal. lia.
    + cbn [calls]. rewrite <- Hok. f_equal. lia.
Qed.

Lemma retry_loop_bounds (w : World) (cmd : list string) (env : gmap string string)
    (azure_cfg : AzureBlobConfig) (fuel : nat) :
  forall (retry : Z) (tr : Trace),
  (Z.to_nat (retries azure_cfg - retry) < fuel)%nat ->
  exists r tr',
    retry_loop w cmd env azure_cfg fuel retry tr = Some (r, tr') /\
    (calls tr < calls tr' <= calls tr + Z.to_nat (retries azure_cfg - retry) + 1)%nat /\
    sleeps tr'
    = sleeps tr ++ replicate (calls tr' - calls tr - 1) (backoff azure_cfg).
Proof.
  induction fuel as [|fuel IH]; intros retry tr Hfuel; [lia|]. cbn [retry_loop].
  destruct (check_call w (calls tr) cmd env) as [code|e].
  { eexists _, _. split; [reflexivity|]. cbn [calls sleeps]. split; [lia|].
    replace (S (calls tr) - calls tr - 1)%nat with 0%nat by lia. by rewrite app_nil_r. }
  destruct (Z.gtb_spec (retry + 1) (retries azure_cfg)) as [Hgt|Hle].
  { eexists _, _. split; [reflexivity|]. cbn [calls sleeps]. split; [lia|].
    replace (S (calls tr) - calls tr - 1)%nat with 0%nat by lia. by rewrite app_nil_r. }
  destruct (time_sleep w (backoff azure_cfg)) as [[]|ex].
  2:{ eexists _, _. split; [reflexivity|]. cbn [calls sleeps]. split; [lia|].
      replace (S (calls tr) - calls tr - 1)%nat with 0%nat by lia. by rewrite app_nil_r. }
  destruct (IH (retry + 1)
              (mkTrace (S (calls tr)) (sleeps tr ++ [backoff azure_cfg])))
    as (r & tr' & -> & Hcalls & Hsleeps); [lia|].
  cbn [calls sleeps] in Hcalls, Hsleeps.
  exists r, tr'. split; [done|]. split; [lia|].
  rewrite Hsleeps, <- app_assoc. f_equal.
  replace (calls tr' - calls tr - 1)%nat with (S (calls tr' - S (calls tr) - 1)) by lia.
  done.
Qed.

Lemma execute_resolved (w : World) (cmd : list string) (azure_cfg : AzureBlobConfig)
    (tr : Trace) :
  credentials_resolve w azure_cfg ->
  _update_cmd_config_and_execute w cmd azure_cfg tr
  = retry_loop w cmd (child_env w azure_cfg) azure_cfg (enough_fuel azure_cfg) 0 tr.
Proof.
  intros [Hname Hkey]. unfold _update_cmd_config_and_execute, child_env.
  destruct (truthy (storage_account_name azure_cfg)),
           (truthy (environ w !! STORAGE_ACCOUNT_NAME_ENV_VAR));
    try (destruct Hname; discriminate); cbn [negb];
    destruct (truthy (storage_account_key azure_cfg)),
             (truthy (environ w !! STORAGE_ACCOUNT_KEY_ENV_VAR));
    try (destruct Hkey; discriminate); reflexivity.
Qed.

(** X18: Where [time.sleep] accepts the backoff, a command that fails on
    every attempt is run exactly [retries + 1] times (once when [retries]
    is negative), with one sleep of [backoff] between attempts, and the
    exception of the last attempt is the one raised. *)
Theorem execute_exhausted (w : World) (cmd : list string) (azure_cfg : AzureBlobConfig)
    (tr : Trace) (err : nat -> exn) :
  credentials_resolve w azure_cfg ->
  time_sleep w (backoff azure_cfg) = Return tt ->
  (forall i, (i <= Z.to_nat (retries azure_cfg))%nat ->
     check_call w (calls tr + i) cmd (child_env w azure_cfg) = Raise (err i)) ->
  _update_cmd_config_and_execute w cmd azure_cfg tr
  = Some (Raise (err (Z.to_nat (retries azure_cfg))),
          mkTrace (calls tr + Z.to_nat (retries azure_cfg) + 1)
                  (sleeps tr ++ replicate (Z.to_nat (retries azure_cfg)) (backoff azure_cfg))).
Proof.
  intros Hcred Hsleep Hfail. rewrite execute_resolved by done.
  apply retry_loop_exhausted; [done | f_equal; lia | unfold enough_fuel; lia | done].
Qed.

(** X19: Where [time.sleep] accepts the backoff, the first attempt that
    succeeds, if it is among the first [retries + 1], ends the call: its
    return code is returned, nothing runs after it, and there was one
    sleep after each failure. *)
Theorem execute_first_success (w : World) (cmd : list string) (azure_cfg : AzureBlobConfig)
    (tr : Trace) (k : nat) (code : Z) :
  credentials_resolve w azure_cfg ->
  time_sleep w (backoff azure_cfg) = Return tt ->
  Z.of_nat k <= retries azure_cfg ->
  (forall i, (i < k)%nat ->
     exists e, check_call w (calls tr + i) cmd (child_env w azure_cfg) = Raise e) ->
  check_call w (calls tr + k) cmd (child_env w azure_cfg) = Return code ->
  _update_cmd_config_and_execute w cmd azure_cfg tr
  = Some (Return code,
          mkTrace (calls tr + k + 1) (sleeps tr ++ replicate k (backoff azure_cfg))).
Proof.
  intros Hcred Hsleep Hk Hfail Hok. rewrite execute_resolved by done.
  apply retry_loop_first_success; [done | lia | unfold enough_fuel; lia | done | done].
Qed.

Lemma execute_exhausted_witness :
  credentials_resolve
    (mkWorld ∅ true (fun _ _ _ => Raise (ProcessError "boom")) py_time_sleep)
    (mkAzureBlobConfig (Some "foo") (Some "bar") 0 10) /\
  _update_cmd_config_and_execute
    (mkWorld ∅ true (fun _ _ _ => Raise (ProcessError "boom")) py_time_sleep)
    ["az"] (mkAzureBlobConfig (Some "foo") (Some "bar") 0 10) (mkTrace 0 [])
  = Some (Raise (ProcessError "boom"), mkTrace 11 (replicate 10 0)).
Proof.
  assert (Hcred : credentials_resolve
    (mkWorld ∅ true (fun _ _ _ => Raise (ProcessError "boom")) py_time_sleep)
    (mkAzureBlobConfig (Some "foo") (Some "bar") 0 10))
    by (split; left; reflexivity).
  split; [exact Hcred|].
  exact (execute_exhausted
           (mkWorld ∅ true (fun _ _ _ => Raise (ProcessError "boom")) py_time_sleep)
           ["az"] (mkAzureBlobConfig (Some "foo") (Some "bar") 0 10) (mkTrace 0 [])
           (fun _ => ProcessError "boom") Hcred eq_refl (fun i _ => eq_refl)).
Defined.

Lemma execute_first_success_witness :
  credentials_resolve
    (mkWorld {["AZURE_STORAGE_ACCOUNT" := "foo"; "AZURE_STORAGE_KEY" := "bar"]} true
       (fun n _ _ => if (n <? 2)%nat then Raise (ProcessError "busy") else Return 0) py_time_sleep)
    (mkAzureBlobConfig None None 5 3) /\
  _update_cmd_config_and_execute
    (mkWorld {["AZURE_STORAGE_ACCOUNT" := "foo"; "AZURE_STORAGE_KEY" := "bar"]} true
       (fun n _ _ => if (n <? 2)%nat then Raise (ProcessError "busy") else Return 0) py_time_sleep)
    ["az"] (mkAzureBlobConfig None None 5 3) (mkTrace 0 [])
  = Some (Return 0, mkTrace 3 [5; 5]).
Proof.
  assert (Hcred : credentials_resolve
    (mkWorld {["AZURE_STORAGE_ACCOUNT" := "foo"; "AZURE_STORAGE_KEY" := "bar"]} true
       (fun n _ _ => if (n <? 2)%nat then Raise (ProcessError "busy") else Return 0) py_time_sleep)
    (mkAzureBlobConfig None None 5 3))
    by (split; right; reflexivity).
  split; [exact Hcred|].
  refine (execute_first_success
           (mkWorld {["AZURE_STORAGE_ACCOUNT" := "foo"; "AZURE_STORAGE_KEY" := "bar"]} true
              (fun n _ _ => if (n <? 2)%nat then Raise (ProcessError "busy") else Return 0) py_time_sleep)
           ["az"] (mkAzureBlobConfig None None 5 3) (mkTrace 0 []) 2 0 Hcred eq_refl _ _ eq_refl).
  - cbn. lia.
  - intros i Hi. exists (ProcessError "busy").
    destruct i as [|[|i]]; [reflexivity | reflexivity | lia].
Defined.

(** X25: When [time.sleep] raises on the backoff (a negative one, say) and
    at least one retry is allowed, a first attempt that fails is the only
    one: the exception of [time.sleep] is raised after exactly one run,
    in place of the command's own failure. *)
Theorem execute_sleep_raises (w : World) (cmd : list string) (azure_cfg : AzureBlobConfig)
    (tr : Trace) (e ex : exn) :
  credentials_resolve w azure_cfg ->
  1 <= retries azure_cfg ->
  check_call w (calls tr) cmd (child_env w azure_cfg) = Raise e ->
  time_sleep w (backoff azure_cfg) = Raise ex ->
  _update_cmd_config_and_execute w cmd azure_cfg tr
  = Some (Raise ex, mkTrace (S (calls tr)) (sleeps tr)).
Proof.
  intros Hcred Hretries Hfail Hsleep. rewrite execute_resolved by done.
  unfold enough_fuel. cbn [retry_loop]. rewrite Hfail.
  destruct (Z.gtb_spec (0 + 1) (retries azure_cfg)) as [Hgt|_]; [lia|].
  by rewrite Hsleep.
Qed.

Lemma execute_sleep_raises_witness :
  credentials_resolve
    (mkWorld ∅ true (fun _ _ _ => Raise (ProcessError "boom")) py_time_sleep)
    (mkAzureBlobConfig (Some "foo") (Some "bar") (-1) 2) /\
  _update_cmd_config_and_execute
    (mkWorld ∅ true (fun _ _ _ => Raise (ProcessError "boom")) py_time_sleep)
    ["az"] (mkAzureBlobConfig (Some "foo") (Some "bar") (-1) 2) (mkTrace 0 [])
  = Some (Raise (ValueError "sleep length must be non-negative"), mkTrace 1 []).
Proof.
  assert (Hcred : credentials_resolve
    (mkWorld ∅ true (fun _ _ _ => Raise (ProcessError "boom")) py_time_sleep)
    (mkAzureBlobConfig (Some "foo") (Some "bar") (-1) 2))
    by (split; left; reflexivity).
  split; [exact Hcred|].
  refine (execute_sleep_raises
            (mkWorld ∅ true (fun _ _ _ => Raise (ProcessError "boom")) py_time_sleep)
            ["az"] (mkAzureBlobConfig (Some "foo") (Some "bar") (-1) 2) (mkTrace 0 [])
            (ProcessError "boom") (ValueError "sleep length must be non-negative")
            Hcred _ eq_refl eq_refl).
  cbn. lia.
Defined.

(** X20: The call always ends: it runs the command at most [retries + 1] times
    (once when [retries] is negative), sleeps [backoff] exactly once
    between two runs, and returns a code only after at least one run. *)
Theorem execute_bounds (w : World) (cmd : list string) (azure_cfg : AzureBlobConfig)
    (tr : Trace) :
  exists r tr',
    _update_cmd_config_and_execute w cmd azure_cfg tr = Some (r, tr') /\
    (calls tr <= calls tr' <= calls tr + Z.to_nat (retries azure_cfg) + 1)%nat /\
    sleeps tr' = sleeps tr ++ replicate (calls tr' - calls tr - 1) (backoff azure_cfg) /\
    (forall code, r = Return code -> (calls tr < calls tr')%nat).
Proof.
  assert (Hloop : forall env, exists r tr',
    retry_loop w cmd env azure_cfg (enough_fuel azure_cfg) 0 tr = Some (r, tr') /\
    (calls tr <= calls tr' <= calls tr + Z.to_nat (retries azure_cfg) + 1)%nat /\
    sleeps tr' = sleeps tr ++ replicate (calls tr' - calls tr - 1) (backoff azure_cfg) /\
    (forall code, r = Return code -> (calls tr < calls tr')%nat)).
  { intros env.
    destruct (retry_loop_bounds w cmd env azure_cfg (enough_fuel azure_cfg) 0 tr)
      as (r & tr' & Hrun & Hcalls & Hsleeps); [unfold enough_fuel; lia|].
    rewrite Z.sub_0_r in Hcalls. exists r, tr'. repeat split; try done; lia. }
  assert (Hstop : forall ex : exn, exists (r : res Z) tr',
    Some (Raise ex, tr) = Some (r, tr') /\
    (calls tr <= calls tr' <= calls tr + Z.to_nat (retries azure_cfg) + 1)%nat /\
    sleeps tr' = sleeps tr ++ replicate (calls tr' - calls tr - 1) (backoff azure_cfg) /\
    (forall code, r = Return code -> (calls tr < calls tr')%nat)).
  { intros ex. exists (Raise ex), tr. split; [done|]. split; [lia|].
    split; [|done]. rewrite Nat.sub_diag. cbn. by rewrite app_nil_r. }
  unfold _update_cmd_config_and_execute.
  destruct (truthy (storage_account_name azure_cfg)),
           (truthy (environ w !! STORAGE_ACCOUNT_NAME_ENV_VAR)); cbn [negb];
    try apply Hstop;
    destruct (truthy (storage_account_key azure_cfg)),
             (truthy (environ w !! STORAGE_ACCOUNT_KEY_ENV_VAR)); cbn [negb];
    try apply Hstop; apply Hloop.
Qed.

(** X21: When a credential is set neither in the configuration nor in the
    environment, the call raises [ValueError] without running the
    command. *)
Theorem credentials_fail_fast (w : World) (cmd : list string)
    (azure_cfg : AzureBlobConfig) (tr : Trace) :
  ~ credentials_resolve w azure_cfg ->
  exists msg,
    _update_cmd_config_and_execute w cmd azure_cfg tr = Some (Raise (ValueError msg), tr).
Proof.
  unfold credentials_resolve, _update_cmd_config_and_execute.
  destruct (truthy (storage_account_name azure_cfg)),
           (truthy (environ w !! STORAGE_ACCOUNT_NAME_ENV_VAR)); cbn [negb];
    destruct (truthy (storage_account_key azure_cfg)),
             (truthy (environ w !! STORAGE_ACCOUNT_KEY_ENV_VAR)); cbn [negb];
    intros Hno; eauto; exfalso; apply Hno; auto.
Qed.

Lemma credentials_fail_fast_witness :
  ~ credentials_resolve (mkWorld {["AZURE_STORAGE_ACCOUNT" := "foo"]} true (fun _ _ _ => Return 0) py_time_sleep)
      (mkAzureBlobConfig None (Some "") 0 10) /\
  exists msg,
    _update_cmd_config_and_execute
      (mkWorld {["AZURE_STORAGE_ACCOUNT" := "foo"]} true (fun _ _ _ => Return 0) py_time_sleep)
      ["az"] (mkAzureBlobConfig None (Some "") 0 10) (mkTrace 0 [])
    = Some (Raise (ValueError msg), mkTrace 0 []).
Proof.
  assert (Hno : ~ credentials_resolve
    (mkWorld {["AZURE_STORAGE_ACCOUNT" := "foo"]} true (fun _ _ _ => Return 0) py_time_sleep)
    (mkAzureBlobConfig None (Some "") 0 10)).
  { intros [_ [Hkey|Hkey]]; vm_compute in Hkey; discriminate Hkey. }
  split; [exact Hno|].
  exact (credentials_fail_fast _ ["az"] _ (mkTrace 0 []) Hno).
Defined.

(** ** [exists] and [put] *)

Lemma exists_valid_path (w : World) (self : AzurePersistence) (container blob_path : string)
    (tr : Trace) :
  az_on_path w = true ->
  occurs "/" container = false ->
  exists_ w self (PROTOCOL +:+ container +:+ "/" +:+ blob_path) tr
  = match _update_cmd_config_and_execute w
            [_AZURE_CLI; "storage"; "blob"; "show"; "--container"; container;
             "--name"; blob_path] (azure_cfg self) tr with
    | None => None
    | Some (Return _, tr) => Some (Return true, tr)
    | Some (Raise ex, tr) =>
        if contains "ErrorCode:ContainerNotFound" (exn_str ex) then Some (Return false, tr)
        else if contains "ErrorCode:BlobNotFound" (exn_str ex) then Some (Return false, tr)
        else Some (Raise ex, tr)
    end.
Proof.
  intros Haz Hc. unfold exists_, _check_binary. rewrite Haz.
  destruct (check_and_split container blob_path Hc) as [-> ->]. done.
Qed.

(** X22: Where [time.sleep] accepts the backoff and every attempt fails,
    [exists] gives its answer only after [retries + 1] runs of the
    command: false if the last failure carries one of the two not-found
    markers, and that failure re-raised otherwise. *)
Theorem exists_after_retries (w : World) (self : AzurePersistence)
    (container blob_path : string) (tr : Trace) (err : nat -> exn) :
  az_on_path w = true ->
  occurs "/" container = false ->
  credentials_resolve w (azure_cfg self) ->
  time_sleep w (backoff (azure_cfg self)) = Return tt ->
  (forall i, (i <= Z.to_nat (retries (azure_cfg self)))%nat ->
     check_call w (calls tr + i)
       [_AZURE_CLI; "storage"; "blob"; "show"; "--container"; container; "--name"; blob_path]
       (child_env w (azure_cfg self)) = Raise (err i)) ->
  let n := Z.to_nat (retries (azure_cfg self)) in
  exists_ w self (PROTOCOL +:+ container +:+ "/" +:+ blob_path) tr
  = Some (if contains "ErrorCode:ContainerNotFound" (exn_str (err n))
             || contains "ErrorCode:BlobNotFound" (exn_str (err n))
          then Return false else Raise (err n),
          mkTrace (calls tr + n + 1)
                  (sleeps tr ++ replicate n (backoff (azure_cfg self)))).
Proof.
  intros Haz Hc Hcred Hsleep Hfail n. rewrite exists_valid_path by done.
  rewrite execute_resolved by done.
  rewrite (retry_loop_exhausted w _ _ (azure_cfg self) n err (enough_fuel (azure_cfg self)) 0 tr);
    [| done | subst n; f_equal; lia | unfold enough_fuel; lia | done].
  destruct (contains "ErrorCode:ContainerNotFound" (exn_str (err n))); [done|].
  by destruct (contains "ErrorCode:BlobNotFound" (exn_str (err n))).
Qed.

Lemma exists_after_retries_witness :
  credentials_resolve
    (mkWorld ∅ true (fun _ _ _ => Raise (ProcessError "ErrorCode:ContainerNotFound")) py_time_sleep)
    (mkAzureBlobConfig (Some "foo") (Some "bar") 0 10) /\
  exists_
    (mkWorld ∅ true (fun _ _ _ => Raise (ProcessError "ErrorCode:ContainerNotFound")) py_time_sleep)
    (mkAzurePersistence None (mkAzureBlobConfig (Some "foo") (Some "bar") 0 10))
    "abfs://test/fdsa/fdsa" (mkTrace 0 [])
  = Some (Return false, mkTrace 11 (replicate 10 0)).
Proof.
  assert (Hcred : credentials_resolve
    (mkWorld ∅ true (fun _ _ _ => Raise (ProcessError "ErrorCode:ContainerNotFound")) py_time_sleep)
    (mkAzureBlobConfig (Some "foo") (Some "bar") 0 10))
    by (split; left; reflexivity).
  split; [exact Hcred|].
  exact (exists_after_retries
           (mkWorld ∅ true (fun _ _ _ => Raise (ProcessError "ErrorCode:ContainerNotFound")) py_time_sleep)
           (mkAzurePersistence None (mkAzureBlobConfig (Some "foo") (Some "bar") 0 10))
           "test" "fdsa/fdsa" (mkTrace 0 [])
           (fun _ => ProcessError "ErrorCode:ContainerNotFound")
           eq_refl eq_refl Hcred eq_refl (fun i _ => eq_refl)).
Defined.

(** X23: Where [time.sleep] accepts the backoff, [exists] answers true as
    soon as one of the first [retries + 1] attempts succeeds, and runs
    nothing after it. *)
Theorem exists_found (w : World) (self : AzurePersistence)
    (container blob_path : string) (tr : Trace) (k : nat) (code : Z) :
  az_on_path w = true ->
  occurs "/" container = false ->
  credentials_resolve w (azure_cfg self) ->
  time_sleep w (backoff (azure_cfg self)) = Return tt ->
  Z.of_nat k <= retries (azure_cfg self) ->
  (forall i, (i < k)%nat ->
     exists e, check_call w (calls tr + i)
       [_AZURE_CLI; "storage"; "blob"; "show"; "--container"; container; "--name"; blob_path]
       (child_env w (azure_cfg self)) = Raise e) ->
  check_call w (calls tr + k)
    [_AZURE_CLI; "storage"; "blob"; "show"; "--container"; container; "--name"; blob_path]
    (child_env w (azure_cfg self)) = Return code ->
  exists_ w self (PROTOCOL +:+ container +:+ "/" +:+ blob_path) tr
  = Some (Return true,
          mkTrace (calls tr + k + 1) (sleeps tr ++ replicate k (backoff (azure_cfg self)))).
Proof.
  intros Haz Hc Hcred Hsleep Hk Hfail Hok. rewrite exists_valid_path by done.
  rewrite execute_resolved by done.
  rewrite (retry_loop_first_success w _ _ (azure_cfg self) code k
             (enough_fuel (azure_cfg self)) 0 tr);
    [done | done | lia | unfold enough_fuel; lia | done | done].
Qed.

Lemma exists_found_witness :
  exists_
    (mkWorld {["AZURE_STORAGE_ACCOUNT" := "foo"; "AZURE_STORAGE_KEY" := "bar"]} true
       (fun n _ _ => match n with O => Raise (ProcessError "busy") | _ => Return 0 end) py_time_sleep)
    (mkAzurePersistence None (mkAzureBlobConfig None None 5 3))
    "abfs://test/fdsa/fdsa" (mkTrace 0 [])
  = Some (Return true, mkTrace 2 [5]).
Proof.
  refine (exists_found
           (mkWorld {["AZURE_STORAGE_ACCOUNT" := "foo"; "AZURE_STORAGE_KEY" := "bar"]} true
              (fun n _ _ => match n with O => Raise (ProcessError "busy") | _ => Return 0 end) py_time_sleep)
           (mkAzurePersistence None (mkAzureBlobConfig None None 5 3))
           "test" "fdsa/fdsa" (mkTrace 0 []) 1 0 eq_refl eq_refl _ eq_refl _ _ eq_refl).
  - split; right; reflexivity.
  - cbn. lia.
  - intros i Hi. exists (ProcessError "busy"). destruct i as [|i]; [reflexivity | lia].
Defined.

(** X24: Neither [exists] nor [put] runs the command when [az] is not on the
    path, when the URI does not start with the protocol, or when nothing
    after the protocol has a "/": both raise, the same exception, and
    leave the trace as it was. *)
Theorem exists_put_fail_fast (w : World) (self : AzurePersistence) (path : string)
    (tr : Trace) :
  az_on_path w = false \/ String.prefix PROTOCOL path = false \/
    occurs "/" (str_drop (String.length PROTOCOL) path) = false ->
  exists ex,
    exists_ w self path tr = Some (Raise ex, tr) /\
    (forall from_path recursive,
       put w self from_path path recursive tr = Some (Raise ex, tr)) /\
    (az_on_path w = true -> String.prefix PROTOCOL path = true ->
     ex = ValueError "substring not found").
Proof.
  intros Hbad. unfold exists_, put, _check_binary, _check_uri, _split_abfs_path.
  destruct (az_on_path w); [|eexists; split; [|split]; by eauto].
  destruct (String.prefix PROTOCOL path); [|eexists; split; [|split]; by eauto].
  destruct Hbad as [?|[?|Hslash]]; try done.
  apply str_index_absent in Hslash. rewrite Hslash. eauto.
Qed.

Lemma exists_put_fail_fast_witness :
  (az_on_path (mkWorld ∅ true (fun _ _ _ => Return 0) py_time_sleep) = false \/
   String.prefix PROTOCOL "s3://bucket/key" = false \/
   occurs "/" (str_drop (String.length PROTOCOL) "s3://bucket/key") = false) /\
  exists ex,
    exists_ (mkWorld ∅ true (fun _ _ _ => Return 0) py_time_sleep)
      (mkAzurePersistence None (mkAzureBlobConfig (Some "foo") (Some "bar") 0 3))
      "s3://bucket/key" (mkTrace 0 []) = Some (Raise ex, mkTrace 0 []).
Proof.
  assert (Hbad :
    az_on_path (mkWorld ∅ true (fun _ _ _ => Return 0) py_time_sleep) = false \/
    String.prefix PROTOCOL "s3://bucket/key" = false \/
    occurs "/" (str_drop (String.length PROTOCOL) "s3://bucket/key") = false)
    by (right; left; reflexivity).
  split; [exact Hbad|].
  destruct (exists_put_fail_fast (mkWorld ∅ true (fun _ _ _ => Return 0) py_time_sleep)
              (mkAzurePersistence None (mkAzureBlobConfig (Some "foo") (Some "bar") 0 3))
              "s3://bucket/key" (mkTrace 0 []) Hbad) as (ex & Hex & _).
  by exists ex.
Defined.

End AzureCliFacts.
